(** * Shallow embedding of the portfolio aggregation-and-scoring pipeline

    Sources embedded:
    - prototype/transform_jira_csv_to_snapshot.py : Row, InitiativeAgg,
      build_parent_map, index_rows, find_initiative_key, dcs_from_signals,
      band_from_dcs, transform, load_csv and main;
    - prototype/generate_portfolio_heatmap.py : score_0_10 and
      compute_driver_scores;
    - prototype/generate_exec_brief.py : Initiative.delta.

    Modelling choices.
    - Python ints are [Z] (unbounded, as in Python).
    - Python floats built from ints ([done / total], [value / max * 10]) are
      modelled by exact rationals [Q]; the float literals 0.8, 0.6 and 0.3
      become 4/5, 3/5 and 3/10.  [int(x)] truncates toward zero and
      [round(x)] rounds half to even.  Where the rounding of IEEE binary64
      arithmetic matters (the progress penalty, and the OverflowError of
      [done_points / total_points]), a double is the rational it denotes
      and each operation rounds its exact result to nearest, ties to even
      ([round64], [pct_done_f64], [progress_penalty_f64]).
    - A Python dict is an association list with the dict's semantics:
      lookup finds the key, assignment replaces the value in place or
      appends a new key at the end (insertion order is kept).
    - Calendar dates are day numbers [Z]; [(d1 - d2).days] is [d1 - d2].
      [parse_date] (strptime over three formats) is a parameter of the
      transform: the statements below hold for any date parser. *)

From Stdlib Require Import ZArith QArith Qround Qabs Qpower Qminmax List String Ascii
  Bool Lia Sorted Permutation Lqa.
Import ListNotations.
Open Scope string_scope.
Open Scope Z_scope.

(* ------------------------------------------------------------------ *)
(** ** Strings *)

(** ASCII [str.lower]. *)
Definition lower_ascii (c : ascii) : ascii :=
  let n := nat_of_ascii c in
  if (65 <=? n)%nat && (n <=? 90)%nat then ascii_of_nat (n + 32) else c.

Fixpoint lower (s : string) : string :=
  match s with
  | EmptyString => EmptyString
  | String c s' => String (lower_ascii c) (lower s')
  end.

(* ------------------------------------------------------------------ *)
(** ** Python dicts *)

Definition Dict (V : Type) := list (string * V).

Fixpoint dict_get {V} (d : Dict V) (k : string) : option V :=
  match d with
  | [] => None
  | (k', v) :: d' => if String.eqb k k' then Some v else dict_get d' k
  end.

(** [d[k] = v] *)
Fixpoint dict_set {V} (d : Dict V) (k : string) (v : V) : Dict V :=
  match d with
  | [] => [(k, v)]
  | (k', v') :: d' =>
      if String.eqb k k' then (k', v) :: d' else (k', v') :: dict_set d' k v
  end.

(* ------------------------------------------------------------------ *)
(** ** Rows *)

(** A row as [load_csv] builds it: text fields stripped, [status] already
    passed through [normalize_status], numbers through [parse_int] (which
    accepts any integer, signs included) and [due_date] through
    [parse_date]. *)
Record Row := mkRow {
  key : string;
  issue_type : string;
  summary : string;
  status : string;
  parent_key : string;
  story_points : Z;
  assignee : string;
  updated : string;
  due_date : option Z;
  blocks : Z;
  blocked_days : Z;
  scope_changes_14d : Z
}.

Definition is_initiative_type (t : string) : bool :=
  String.eqb (lower t) "initiative".

Definition build_parent_map (rows : list Row) : Dict string :=
  fold_left (fun m r =>
               if String.eqb (parent_key r) "" then m
               else dict_set m (key r) (parent_key r)) rows [].

Definition index_rows (rows : list Row) : Dict Row :=
  fold_left (fun m r => dict_set m (key r) r) rows [].

(* ------------------------------------------------------------------ *)
(** ** Hierarchy resolution *)

(** The [for _ in range(20)] loop, [fuel] being the iterations left.  The
    second component counts the iterations executed. *)
Fixpoint walk (fuel : nat) (cur : string) (visited : list string)
    (parent_map : Dict string) (row_index : Dict Row) : option string * nat :=
  match fuel with
  | O => (None, O)
  | S fuel' =>
      if existsb (String.eqb cur) visited then (None, 1%nat) else
      let visited' := cur :: visited in
      (* row = row_index.get(cur); if row and row.issue_type.lower() == ... *)
      let found :=
        match dict_get row_index cur with
        | Some row =>
            if is_initiative_type (issue_type row) then Some (key row) else None
        | None => None
        end in
      match found with
      | Some k => (Some k, 1%nat)
      | None =>
          (* parent = parent_map.get(cur); if not parent: return None *)
          match dict_get parent_map cur with
          | None => (None, 1%nat)
          | Some parent =>
              if String.eqb parent "" then (None, 1%nat)
              else let (res, n) := walk fuel' parent visited' parent_map row_index
                   in (res, S n)
          end
      end
  end.

Definition find_initiative_key (issue_key : string) (parent_map : Dict string)
    (row_index : Dict Row) : option string :=
  fst (walk 20 issue_key [] parent_map row_index).

(** Number of loop iterations [find_initiative_key] executes. *)
Definition find_initiative_iterations (issue_key : string)
    (parent_map : Dict string) (row_index : Dict Row) : nat :=
  snd (walk 20 issue_key [] parent_map row_index).

(* ------------------------------------------------------------------ *)
(** ** Confidence score *)

(** Python's [int(x)] on a float: truncation toward zero. *)
Definition py_int (x : Q) : Z :=
  if Qle_bool 0 x then Qfloor x else - Qfloor (- x).

(** Float [<] on rationals. *)
Definition Qlt_bool (x y : Q) : bool := negb (Qle_bool y x).

Definition Qclamp01 (x : Q) : Q := Qmax 0 (Qmin 1 x).

Definition progress_penalty (pct_done : Q) : Z :=
  py_int ((1 - Qclamp01 pct_done) * 30).

Definition due_penalty (pct_done : Q) (days_to_target : option Z) : Z :=
  match days_to_target with
  | None => 0
  | Some d =>
      if (d <=? 7) && Qlt_bool pct_done (4 # 5) then 15
      else if (d <=? 14) && Qlt_bool pct_done (3 # 5) then 10
      else 0
  end.

Definition dcs_from_signals (pct_done : Q) (blocked_days : Z)
    (scope_changes_14d : Z) (dependency_count : Z) (critical_dependency : bool)
    (days_to_target : option Z) (has_blocked_items : bool) : Z :=
  let score := 100 in
  let score := score - progress_penalty pct_done in
  let score := score - Z.min 25 (blocked_days * 5) in
  let score := score - Z.min 20 (scope_changes_14d * 4) in
  let dep_pen := Z.min 15 (dependency_count * 3)
                 + (if critical_dependency then 5 else 0) in
  let score := score - dep_pen in
  let score := score - due_penalty pct_done days_to_target in
  let score := if has_blocked_items then score - 8 else score in
  Z.max 0 (Z.min 100 score).

Definition band_from_dcs (dcs : Z) : string :=
  if 80 <=? dcs then "Green"
  else if 60 <=? dcs then "Yellow"
  else "Red".

(* ------------------------------------------------------------------ *)
(** ** Initiative aggregation *)

Module Agg.
(** [InitiativeAgg] *)
Record t := mk {
  id : string;
  name : string;
  total_points : Z;
  done_points : Z;
  blocked_days : Z;
  scope_changes_14d : Z;
  dependency_count : Z;
  critical_dependency : bool;
  days_stagnant : Z;
  due_date : option Z;
  status_notes : list string
}.

(** [InitiativeAgg(id=..., name=..., due_date=...)] with every other field
    at its dataclass default. *)
Definition init (id name : string) (due : option Z) : t :=
  mk id name 0 0 0 0 0 false 0 due [].
End Agg.

Definition is_points_type (t : string) : bool :=
  existsb (String.eqb (lower t)) ["story"; "sub-task"; "subtask"; "task"].

(** The body of the aggregation loop once [agg = initiatives[ikey]] is
    known: every field update of [transform], in the source's order. *)
Definition fold_row (agg : Agg.t) (r : Row) : Agg.t :=
  let due :=
    match due_date r with
    | Some d =>
        match Agg.due_date agg with
        | None => Some d
        | Some a => if d <? a then Some d else Some a
        end
    | None => Agg.due_date agg
    end in
  let pts := story_points r in
  let total :=
    if is_points_type (issue_type r) then Agg.total_points agg + pts
    else Agg.total_points agg in
  let done :=
    if is_points_type (issue_type r) && String.eqb (status r) "Done"
    then Agg.done_points agg + pts else Agg.done_points agg in
  let notes :=
    if String.eqb (status r) "Blocked" && negb (String.eqb (summary r) "")
    then app (Agg.status_notes agg) ["Blocked: " ++ summary r]
    else Agg.status_notes agg in
  Agg.mk (Agg.id agg) (Agg.name agg) total done
    (Z.max (Agg.blocked_days agg) (blocked_days r))
    (Agg.scope_changes_14d agg + scope_changes_14d r)
    (Agg.dependency_count agg + blocks r)
    (Agg.critical_dependency agg || (3 <=? blocks r))
    (Agg.days_stagnant agg) due notes.

(** Placeholder for an initiative key with no Initiative row. *)
Definition placeholder (ikey : string) : Agg.t :=
  Agg.init ikey (ikey ++ " (unresolved title)") None.

(** One iteration of [for r in rows:].  Inserting the placeholder and then
    mutating it in place leaves the same dict as assigning the updated
    placeholder at the new key. *)
Definition aggregate_step (parent_map : Dict string) (row_index : Dict Row)
    (initiatives : Dict Agg.t) (r : Row) : Dict Agg.t :=
  match find_initiative_key (key r) parent_map row_index with
  | None => initiatives
  | Some ikey =>
      if String.eqb ikey "" then initiatives else
      let agg :=
        match dict_get initiatives ikey with
        | Some a => a
        | None => placeholder ikey
        end in
      dict_set initiatives ikey (fold_row agg r)
  end.

(** [initiatives[r.key] = InitiativeAgg(...)] for every Initiative row. *)
Definition initial_initiatives (rows : list Row) : Dict Agg.t :=
  fold_left (fun m r =>
               if is_initiative_type (issue_type r)
               then dict_set m (key r) (Agg.init (key r) (summary r) (due_date r))
               else m) rows [].

Definition aggregate (rows : list Row) : Dict Agg.t :=
  let parent_map := build_parent_map rows in
  let row_index := index_rows rows in
  fold_left (aggregate_step parent_map row_index) rows (initial_initiatives rows).

(** The rows [transform] folds into initiative [ikey]. *)
Definition rows_resolving_to (rows : list Row) (ikey : string) : list Row :=
  filter (fun r =>
            match find_initiative_key (key r) (build_parent_map rows)
                    (index_rows rows) with
            | Some k => String.eqb k ikey
            | None => false
            end) rows.

(* ------------------------------------------------------------------ *)
(** ** Snapshot records *)

Module Snap.
(** One element of the snapshot's ["initiatives"] array. *)
Record t := mk {
  id : string;
  name : string;
  dcs_current : Z;
  dcs_prior : Z;
  band : string;
  blocked_days : Z;
  scope_changes_14d : Z;
  days_stagnant : Z;
  dependency_count : Z;
  critical_dependency : bool;
  days_to_target : Z;
  status_notes : list string
}.
End Snap.

Definition pct_done_of (done_points total_points : Z) : Q :=
  if 0 <? total_points then Qmake done_points (Z.to_pos total_points) else 0.

Definition has_blocked_items (notes : list string) : bool :=
  existsb (fun n => String.prefix "Blocked:" n) notes.

(** The body of [for agg in initiatives.values():], [we] the parsed
    week_ending. *)
Definition finalize (we : Z) (agg : Agg.t) : Snap.t :=
  let pct_done := pct_done_of (Agg.done_points agg) (Agg.total_points agg) in
  let days_to_target := option_map (fun d => d - we) (Agg.due_date agg) in
  let hb := has_blocked_items (Agg.status_notes agg) in
  let dcs_current :=
    dcs_from_signals pct_done (Agg.blocked_days agg) (Agg.scope_changes_14d agg)
      (Agg.dependency_count agg) (Agg.critical_dependency agg) days_to_target hb in
  let drift := Z.min 8 (Agg.scope_changes_14d agg * 2 + (if hb then 2 else 0)) in
  let dcs_prior := Z.max 0 (Z.min 100 (dcs_current + drift)) in
  let band := band_from_dcs dcs_current in
  let days_stagnant :=
    if (0 <? Agg.total_points agg) && Qlt_bool pct_done (3 # 10)
       && (match days_to_target with Some d => d <=? 14 | None => false end)
    then 4
    else if Qlt_bool pct_done (4 # 5) then 1 else 0 in
  let notes :=
    match firstn 2 (Agg.status_notes agg) with
    | [] => ["No significant blockers detected in snapshot."]
    | l => l
    end in
  Snap.mk (Agg.id agg) (Agg.name agg) dcs_current dcs_prior band
    (Agg.blocked_days agg) (Agg.scope_changes_14d agg) days_stagnant
    (Agg.dependency_count agg) (Agg.critical_dependency agg)
    (match days_to_target with Some d => d | None => 21 end) notes.

(* ------------------------------------------------------------------ *)
(** ** Ordering and snapshot assembly *)

(** [(x["band"], x["dcs_current"]) < (y["band"], y["dcs_current"])]:
    Python's tuple order, strings compared lexicographically by code
    point. *)
Definition sort_key_lt (x y : Snap.t) : bool :=
  match String.compare (Snap.band x) (Snap.band y) with
  | Lt => true
  | Gt => false
  | Eq => Snap.dcs_current x <? Snap.dcs_current y
  end.

Definition sort_key_le (x y : Snap.t) : bool := negb (sort_key_lt y x).

(** [out_inits.sort(key=...)]: Python's sort is stable, so its result is
    the one of this stable insertion sort (an element is placed after every
    element it is not smaller than). *)
Fixpoint insert_sorted (x : Snap.t) (l : list Snap.t) : list Snap.t :=
  match l with
  | [] => [x]
  | y :: l' => if sort_key_lt x y then x :: y :: l' else y :: insert_sorted x l'
  end.

Definition sort_snap (l : list Snap.t) : list Snap.t :=
  fold_left (fun acc x => insert_sorted x acc) l [].

Record Snapshot := mkSnapshot {
  week_ending : string;
  total_initiatives : Z;
  source : string;
  initiatives : list Snap.t
}.

(** A computation that returns a value or raises with a message. *)
Inductive result (A : Type) : Type :=
| Ok : A -> result A
| Err : string -> result A.
Arguments Ok {A} _.
Arguments Err {A} _.

(* ------------------------------------------------------------------ *)
(** ** Binary64 arithmetic *)

(** [N / D] rounded to the nearest integer, ties to even ([D > 0]). *)
Definition rne_div (N D : Z) : Z :=
  let q := N / D in
  let r := N mod D in
  if 2 * r <? D then q
  else if D <? 2 * r then q + 1
  else if Z.even q then q else q + 1.

(** The exponent [k] with [2^k <= n / d < 2^(k+1)] ([n, d > 0]). *)
Definition floor_log2 (n d : Z) : Z :=
  let c := Z.log2 n - Z.log2 d in
  if 0 <=? c then (if d * 2 ^ c <=? n then c else c - 1)
  else (if d <=? n * 2 ^ (- c) then c else c - 1).

(** The double nearest to [n / d] ([n, d > 0]): a multiple of [2^e], with
    [e] the exponent of its 53-bit significand, at least [-1074]. *)
Definition round_pos (n d : Z) : Q :=
  let e := Z.max (floor_log2 n d - 52) (-1074) in
  if 0 <=? e then (inject_Z (rne_div n (d * 2 ^ e)) * 2 ^ e)%Q
  else (inject_Z (rne_div (n * 2 ^ (- e)) d) * 2 ^ e)%Q.

(** A binary64 operation on exact operands: the exact result rounded to
    the nearest double (53-bit significand, subnormals down to [2^-1074]).
    The exponent is not bounded here: [float_overflows] tells when the
    rounded value is beyond the largest double. *)
Definition round64 (x : Q) : Q :=
  match Qnum x with
  | Z0 => 0
  | Zpos n => round_pos (Zpos n) (Zpos (Qden x))
  | Zneg n => (- round_pos (Zpos n) (Zpos (Qden x)))%Q
  end.

Definition float_overflows (x : Q) : bool := Qle_bool (inject_Z (2 ^ 1024)) (Qabs x).

(** [a / b] on Python ints ([b <> 0]): correctly rounded, and raising
    OverflowError when the result does not fit in a double. *)
Definition int_truediv (a b : Z) : result Q :=
  let q := round64 (inject_Z a / inject_Z b) in
  if float_overflows q then Err "integer division result too large for a float"
  else Ok q.

(** [pct_done = (agg.done_points / agg.total_points) if agg.total_points > 0
    else 0.0] in binary64. *)
Definition pct_done_f64 (done_points total_points : Z) : result Q :=
  if 0 <? total_points then int_truediv done_points total_points else Ok 0%Q.

(** [int((1.0 - max(0.0, min(1.0, pct_done))) * 30)] in binary64: the
    clamp is exact, the subtraction and the product each round. *)
Definition progress_penalty_f64 (pct_done : Q) : Z :=
  py_int (round64 (round64 (1 - Qclamp01 pct_done) * 30)).

(** Relative and absolute error bounds of [round64]. *)
Definition eps53 : Q := 1 # 9007199254740992.
Definition tiny1075 : Q := / inject_Z (2 ^ 1075).

Section Transform.

(** [parse_date]: strptime over ["%Y-%m-%d"; "%m/%d/%Y"; "%Y/%m/%d"],
    [None] when no format matches; a date is a day number. *)
Variable parse_date : string -> option Z.

Definition transform (rows : list Row) (week_ending_s : string) : result Snapshot :=
  let initiatives := aggregate rows in
  match parse_date week_ending_s with
  | None => Err "week_ending must be a date like YYYY-MM-DD"
  | Some we =>
      let out_inits := map (fun kv => finalize we (snd kv)) initiatives in
      let sorted := sort_snap out_inits in
      Ok (mkSnapshot week_ending_s (Z.of_nat (List.length sorted)) "csv_transform" sorted)
  end.

Definition REQUIRED_HEADERS : list string :=
  ["Issue key"; "Issue Type"; "Summary"; "Status"; "Parent key"].

Definition repr_str_list (l : list string) : string :=
  "[" ++ String.concat ", " (map (fun h => "'" ++ h ++ "'") l) ++ "]".

(** [for r in reader:] with the blank-key filter.  [csv.DictReader]
    decodes and splits the file lazily, so reading a record may raise
    (UnicodeDecodeError, csv.Error for a field over the size limit): a
    record is [Ok] the row it is normalized to (field normalization
    never raises: [parse_int] and [parse_date] fall back to defaults) or
    [Err] the exception it raises.  Rows with a blank key are skipped. *)
Fixpoint read_rows (records : list (result Row)) : result (list Row) :=
  match records with
  | [] => Ok []
  | Err m :: _ => Err m
  | Ok r :: rest =>
      match read_rows rest with
      | Err m => Err m
      | Ok rows => Ok (if String.eqb (key r) "" then rows else r :: rows)
      end
  end.

(** [load_csv]: [fieldnames] is the result of reading [reader.fieldnames]
    (the header row, which may raise as a record may; [Ok None] for an
    empty file); [records] the data records in file order. *)
Definition load_csv (fieldnames : result (option (list string)))
    (records : list (result Row)) : result (list Row) :=
  match fieldnames with
  | Err m => Err m
  | Ok None => Err "CSV has no headers."
  | Ok (Some fns) =>
      let missing :=
        filter (fun h => negb (existsb (String.eqb h) fns)) REQUIRED_HEADERS in
      match missing with
      | [] => read_rows records
      | _ => Err ("Missing required headers: " ++ repr_str_list missing)
      end
  end.

(** Whether [pct_done] raises for an aggregate: [done_points / total_points]
    when the quotient is too large for a double. *)
Definition pct_done_raises (agg : Agg.t) : bool :=
  match pct_done_f64 (Agg.done_points agg) (Agg.total_points agg) with
  | Ok _ => false
  | Err _ => true
  end.

(** Some initiative's [done_points / total_points] is too large for a
    double. *)
Definition some_pct_done_raises (rows : list Row) : bool :=
  existsb (fun kv => pct_done_raises (snd kv)) (aggregate rows).

(** [main]: the output file's contents are the state ([None]: no file).
    [transform] computes [pct_done] for each initiative once week_ending
    has parsed; [transform] above takes it as an exact rational, and the
    OverflowError of the float division is raised here, in the same
    order.  The output is opened for writing only after [transform]
    returned.  The success message printed after the write is not
    modelled. *)
Definition main (fieldnames : result (option (list string)))
    (records : list (result Row)) (week_ending_s : string)
    (output : option Snapshot) : result unit * option Snapshot :=
  match load_csv fieldnames records with
  | Err m => (Err m, output)
  | Ok rows =>
      match transform rows week_ending_s with
      | Err m => (Err m, output)
      | Ok snap =>
          if some_pct_done_raises rows
          then (Err "integer division result too large for a float", output)
          else (Ok tt, Some snap)
      end
  end.

End Transform.

(* ------------------------------------------------------------------ *)
(** ** Driver heatmap *)

(** Python's [round] on a float: half to even. *)
Definition round_half_even (x : Q) : Z :=
  let f := Qfloor x in
  let r := (x - inject_Z f)%Q in
  if Qlt_bool r (1 # 2) then f
  else if Qlt_bool (1 # 2) r then f + 1
  else if Z.even f then f else f + 1.

Definition Qclamp (x lo hi : Q) : Q := Qmax lo (Qmin hi x).

Definition score_0_10 (value max_value : Z) : Z :=
  if max_value <=? 0 then 0
  else round_half_even (Qclamp ((inject_Z value / inject_Z max_value) * 10)%Q 0 10).

Record DriverScores := mkDriverScores {
  confidence_risk : Z;
  blocked : Z;
  scope_volatility : Z;
  dependencies : Z;
  due_proximity : Z;
  stagnation : Z
}.

Definition compute_driver_scores (item : Snap.t) : DriverScores :=
  let dcs := Snap.dcs_current item in
  let confidence_risk := score_0_10 (100 - dcs) 60 in
  let blocked := score_0_10 (Snap.blocked_days item) 5 in
  let scope_volatility := score_0_10 (Snap.scope_changes_14d item) 5 in
  let dependencies := score_0_10 (Snap.dependency_count item) 6 in
  let dependencies :=
    if Snap.critical_dependency item then Z.min 10 (dependencies + 2)
    else dependencies in
  let d := Snap.days_to_target item in
  let due_proximity :=
    if d <=? 7 then 10 else if d <=? 14 then 7 else if d <=? 21 then 4 else 1 in
  let stagnation := score_0_10 (Snap.days_stagnant item) 6 in
  mkDriverScores confidence_risk blocked scope_volatility dependencies
    due_proximity stagnation.

(* ------------------------------------------------------------------ *)
(** ** Executive brief *)

(** [Initiative.delta] *)
Definition delta (i : Snap.t) : Z := Snap.dcs_current i - Snap.dcs_prior i.

(** The positive-momentum filter of [render_brief]. *)
Definition positive_momentum (i : Snap.t) : bool :=
  (0 <? delta i)
  || (String.eqb (Snap.band i) "Green" && (85 <=? Snap.dcs_current i)).

(* ------------------------------------------------------------------ *)
(** ** Vocabulary of the statements *)

(** The key reached after [n] parent hops from [k], following
    [parent_map.get(cur)] as the resolver does ([None] once a hop has no
    parent). *)
Fixpoint hop (parent_map : Dict string) (k : string) (n : nat) : option string :=
  match n with
  | O => Some k
  | S n' =>
      match dict_get parent_map k with
      | Some p => if String.eqb p "" then None else hop parent_map p n'
      | None => None
      end
  end.

(** A required header is absent from the CSV's header row (every one is,
    when the file has no header row). *)
Definition header_missing (fieldnames : option (list string)) (h : string) : Prop :=
  match fieldnames with
  | None => True
  | Some l => ~ In h l
  end.

(** The header row was read and holds every required header. *)
Definition header_row_complete (fieldnames : result (option (list string))) : Prop :=
  exists fns, fieldnames = Ok (Some fns) /\ forall h, In h REQUIRED_HEADERS -> In h fns.

(** Ascending tuple order on [(band, dcs_current)], bands compared
    lexicographically. *)
Definition band_dcs_le (x y : Snap.t) : Prop :=
  String.compare (Snap.band x) (Snap.band y) = Lt
  \/ (Snap.band x = Snap.band y /\ Snap.dcs_current x <= Snap.dcs_current y).

(** Sums and running maxima of the rollups. *)
Definition sumZ (l : list Z) : Z := fold_right Z.add 0 l.

(** [agg.blocked_days = max(agg.blocked_days, r.blocked_days)] from 0. *)
Definition max_from_zero (l : list Z) : Z := fold_left Z.max l 0.

(* ------------------------------------------------------------------ *)
(** ** Fixtures *)

(** A date parser for the fixtures: the week ending 2026-02-06 is day 0. *)
Definition fixture_parse_date (s : string) : option Z :=
  if String.eqb s "2026-02-06" then Some 0 else None.

Definition init_row (k : string) (due : option Z) (bd : Z) : Row :=
  mkRow k "Initiative" k "Not Started" "" 0 "" "" due 0 bd 0.

Definition story_row (k parent st : string) (pts : Z) (b bd sc : Z) : Row :=
  mkRow k "Story" k st parent pts "" "" None b bd sc.

(** One initiative, one finished story and one blocked, critical one. *)
Definition fixture_rows : list Row :=
  [init_row "INIT-1" (Some 10) 0;
   story_row "STORY-1" "INIT-1" "Done" 5 1 0 1;
   story_row "STORY-2" "INIT-1" "Blocked" 3 3 2 0;
   init_row "INIT-2" None 0;
   story_row "STORY-3" "INIT-2" "In Progress" 8 0 1 2].

(** A record the reader cannot decode (a Latin-1 byte in a UTF-8 file). *)
Definition decode_error : string :=
  "UnicodeDecodeError: 'utf-8' codec can't decode byte 0xe9 in position 12: invalid continuation byte".

(** [int(float("1.7976931348623157e308"))], the largest double. *)
Definition max_double_int : Z := 2 ^ 1024 - 2 ^ 971.

(** One initiative whose story points add up to 1 while its two Done
    stories hold the largest double each. *)
Definition overflow_rows : list Row :=
  [init_row "INIT-1" None 0;
   story_row "STORY-1" "INIT-1" "Done" max_double_int 0 0 0;
   story_row "STORY-2" "INIT-1" "Done" max_double_int 0 0 0;
   story_row "STORY-3" "INIT-1" "To Do" (- max_double_int) 0 0 0;
   story_row "STORY-4" "INIT-1" "To Do" (- max_double_int) 0 0 0;
   story_row "STORY-5" "INIT-1" "To Do" 1 0 0 0].

Definition fixture_snapshot : Snapshot :=
  match transform fixture_parse_date fixture_rows "2026-02-06" with
  | Ok s => s
  | Err _ => mkSnapshot "" 0 "" []
  end.

(** A story with negative story points (the CSV cell "-5"). *)
Definition negative_points_rows : list Row :=
  [init_row "INIT-1" None 0; story_row "STORY-1" "INIT-1" "Done" (-5) 0 0 0].

(** An initiative whose Blocked Days cell is "-2". *)
Definition negative_blocked_rows : list Row := [init_row "INIT-1" None (-2)].

(** A Blocked story with an empty Summary cell. *)
Definition blocked_blank_summary_rows : list Row :=
  [init_row "INIT-1" None 0;
   mkRow "STORY-1" "Story" "" "Blocked" "INIT-1" 0 "" "" None 0 0 0].

(** A three-node parent cycle with no Initiative on it. *)
Definition cycle_parent_map : Dict string :=
  [("A", "B"); ("B", "C"); ("C", "A")].

Definition cycle_rows : list Row :=
  [story_row "A" "B" "To Do" 1 0 0 0; story_row "B" "C" "To Do" 1 0 0 0;
   story_row "C" "A" "To Do" 1 0 0 0].

(** A story under an epic under an initiative. *)
Definition chain_rows : list Row :=
  [init_row "INIT-1" None 0;
   mkRow "EPIC-1" "Epic" "EPIC-1" "In Progress" "INIT-1" 0 "" "" None 0 0 0;
   story_row "STORY-1" "EPIC-1" "To Do" 3 0 0 0].

(* ------------------------------------------------------------------ *)
(** ** Status normalization *)

(** [str.isspace] on ASCII: tab, line feed, vertical tab, form feed,
    carriage return, the separators 0x1c-0x1f and space.  Text is
    restricted to ASCII in this embedding. *)
Definition is_space (c : ascii) : bool :=
  let n := nat_of_ascii c in
  ((9 <=? n)%nat && (n <=? 13)%nat) || ((28 <=? n)%nat && (n <=? 32)%nat).

Fixpoint drop_spaces (l : list ascii) : list ascii :=
  match l with
  | [] => []
  | c :: l' => if is_space c then drop_spaces l' else l
  end.

(** [str.strip()] *)
Definition strip (s : string) : string :=
  string_of_list_ascii
    (rev (drop_spaces (rev (drop_spaces (list_ascii_of_string s))))).

Definition normalize_status (status : string) : string :=
  let s := lower (strip status) in
  if existsb (String.eqb s) ["done"; "closed"; "resolved"] then "Done"
  else if existsb (String.eqb s) ["blocked"] then "Blocked"
  else if existsb (String.eqb s) ["in progress"; "in-progress"; "inprogress"; "doing"]
  then "In Progress"
  else if existsb (String.eqb s) ["to do"; "todo"; "backlog"; "not started"; "open"]
  then "Not Started"
  else if String.eqb (strip status) "" then "Unknown" else strip status.

(* ------------------------------------------------------------------ *)
(** ** Stable sorting by a strict order *)

(** [list.sort] / [sorted] with a key, [lt x y] meaning that [x] must come
    before [y] ([key x < key y], or [key x > key y] under
    [reverse=True]).  Both sorts are stable, so their result is the one
    of this stable insertion sort. *)
Fixpoint insert_by {A} (lt : A -> A -> bool) (x : A) (l : list A) : list A :=
  match l with
  | [] => [x]
  | y :: l' => if lt x y then x :: y :: l' else y :: insert_by lt x l'
  end.

Definition sort_by {A} (lt : A -> A -> bool) (l : list A) : list A :=
  fold_left (fun acc x => insert_by lt x acc) l [].

(** Lexicographic [>] on integer tuples. *)
Fixpoint lex_gt (xs ys : list Z) : bool :=
  match xs, ys with
  | x :: xs', y :: ys' => (y <? x) || ((x =? y) && lex_gt xs' ys')
  | _, _ => false
  end.

(* ------------------------------------------------------------------ *)
(** ** Heatmap rows *)

(** A row of the heatmap CSV: the initiative's name and its scores. *)
Definition heatmap_row : Type := string * DriverScores.

(** [for it in inits: ... heatmap_rows.append(row)] *)
Definition build_heatmap_rows (inits : list Snap.t) : list heatmap_row :=
  map (fun it => (Snap.name it, compute_driver_scores it)) inits.

Definition heatmap_sort_key (r : heatmap_row) : list Z :=
  [confidence_risk (snd r); due_proximity (snd r); blocked (snd r)].

(** [heatmap_rows.sort(key=(Confidence Risk, Due Proximity, Blocked),
    reverse=True)] *)
Definition sort_heatmap_rows (rows : list heatmap_row) : list heatmap_row :=
  sort_by (fun x y => lex_gt (heatmap_sort_key x) (heatmap_sort_key y)) rows.

(** [driver_totals[key]] after the loop. *)
Definition driver_total (f : DriverScores -> Z) (inits : list Snap.t) : Z :=
  fold_left (fun acc it => acc + f (compute_driver_scores it)) inits 0.

(** [worst3 = heatmap_rows[:3] if len(heatmap_rows) >= 3 else heatmap_rows] *)
Definition worst3 (rows : list heatmap_row) : list heatmap_row :=
  if (3 <=? List.length rows)%nat then firstn 3 rows else rows.

(* ------------------------------------------------------------------ *)
(** ** Executive brief *)

Definition clamp (n lo hi : Z) : Z := Z.max lo (Z.min hi n).

(** [risk_rank]; the float weights are exact rationals. *)
Definition risk_rank (i : Snap.t) : Q :=
  let fall := (inject_Z (Z.max 0 (- delta i)) * 3)%Q in
  let due :=
    if Snap.days_to_target i <=? 7 then 18%Q
    else if Snap.days_to_target i <=? 14 then 10%Q else 0%Q in
  let blocked := (inject_Z (clamp (Snap.blocked_days i) 0 10) * 4)%Q in
  let stagnant := (inject_Z (clamp (Snap.days_stagnant i) 0 10) * (5 # 2))%Q in
  let deps := (inject_Z (clamp (Snap.dependency_count i) 0 10) * 2
               + (if Snap.critical_dependency i then 6 else 0))%Q in
  let low_score := (inject_Z (100 - Snap.dcs_current i) * (3 # 5))%Q in
  (fall + due + blocked + stagnant + deps + low_score)%Q.

Definition CONTINUE_PROMPT : string := "Continue current plan; monitor trend".

(** The prompts of [decision_prompt] before they are joined. *)
Definition decision_prompts (i : Snap.t) : list string :=
  let p1 := if 2 <=? Snap.scope_changes_14d i
            then ["Freeze scope / lock acceptance criteria"] else [] in
  let p2 := if (2 <=? Snap.blocked_days i) || (4 <=? Snap.days_stagnant i)
            then ["Remove blocker or re-route critical path"] else [] in
  let p3 := if Snap.critical_dependency i || (4 <=? Snap.dependency_count i)
            then ["Escalate dependency alignment / sequence work"] else [] in
  let p4 := if (Snap.days_to_target i <=? 14) && (Snap.dcs_current i <? 80)
            then ["Decide: add capacity vs reduce deliverable surface area vs accept slip"]
            else [] in
  let prompts := (p1 ++ p2 ++ p3 ++ p4)%list in
  match prompts with
  | [] => [CONTINUE_PROMPT]
  | _ => firstn 2 prompts
  end.

Definition decision_prompt (i : Snap.t) : string :=
  String.concat "; " (decision_prompts i).

(** [band_counts] *)
Definition band_counts (inits : list Snap.t) : Dict Z :=
  fold_left (fun counts i =>
               match dict_get counts (Snap.band i) with
               | Some n => dict_set counts (Snap.band i) (n + 1)
               | None => dict_set counts (Snap.band i) (0 + 1)
               end) inits [("Green", 0); ("Yellow", 0); ("Red", 0)].

(** [min(xs, key=f)] and [max(xs, key=f)]: the first element with the
    least (greatest) key; they raise on an empty sequence. *)
Definition min_by (f : Snap.t -> Z) (xs : list Snap.t) : option Snap.t :=
  match xs with
  | [] => None
  | x :: xs' => Some (fold_left (fun b y => if f y <? f b then y else b) xs' x)
  end.

Definition max_by (f : Snap.t -> Z) (xs : list Snap.t) : option Snap.t :=
  match xs with
  | [] => None
  | x :: xs' => Some (fold_left (fun b y => if f b <? f y then y else b) xs' x)
  end.

Definition is_positive (i : Snap.t) : bool :=
  (0 <? delta i) || (String.eqb (Snap.band i) "Green" && (85 <=? Snap.dcs_current i)).

(** What [render_brief] selects before it formats the Markdown:
    the largest decline and improvement, the top three risks and up to
    three positives; it raises when there is no initiative. *)
Record BriefSelection := mkBriefSelection {
  biggest_drop : Snap.t;
  biggest_gain : Snap.t;
  risks : list Snap.t;
  positives : list Snap.t
}.

Definition brief_selection (inits : list Snap.t) : result BriefSelection :=
  match min_by delta inits, max_by delta inits with
  | Some drop, Some gain =>
      let risks := firstn 3 (sort_by (fun x y => Qlt_bool (risk_rank y) (risk_rank x)) inits) in
      let positives :=
        firstn 3 (sort_by (fun x y => lex_gt [delta x; Snap.dcs_current x]
                                             [delta y; Snap.dcs_current y])
                          (filter is_positive inits)) in
      Ok (mkBriefSelection drop gain risks positives)
  | _, _ => Err "min() arg is an empty sequence"
  end.

(** Four initiatives as a snapshot JSON may list them. *)
Definition brief_inits : list Snap.t :=
  [Snap.mk "A" "Alpha" 90 85 "Green" 0 0 0 0 false 30 ["No significant blockers detected in snapshot."];
   Snap.mk "B" "Beta" 55 60 "Red" 3 2 4 5 true 5 ["Blocked: vendor API"];
   Snap.mk "C" "Gamma" 88 88 "Green" 0 0 0 1 false 40 [];
   Snap.mk "D" "Delta" 70 72 "Yellow" 1 1 1 2 false 12 []].

Definition blank_initiative : Snap.t := Snap.mk "" "" 0 0 "" 0 0 0 0 false 0 [].

Definition fixture_brief : BriefSelection :=
  match brief_selection brief_inits with
  | Ok s => s
  | Err _ => mkBriefSelection blank_initiative blank_initiative [] []
  end.

(* ================================================================== *)
(** * Properties *)

(* ------------------------------------------------------------------ *)
(** ** Dicts *)

Module DictFacts.

Lemma get_set {V} (d : Dict V) k k' v :
  dict_get (dict_set d k v) k' = if String.eqb k' k then Some v else dict_get d k'.
Proof.
  induction d as [|[k0 v0] d IH]; simpl.
  - destruct (String.eqb k' k); reflexivity.
  - destruct (String.eqb_spec k k0) as [->|Hne]; simpl.
    + destruct (String.eqb k' k0); reflexivity.
    + rewrite IH. destruct (String.eqb_spec k' k0) as [->|]; [|reflexivity].
      destruct (String.eqb_spec k0 k); [congruence|reflexivity].
Qed.

Lemma keys_set {V} (d : Dict V) k v k' :
  In k' (map fst (dict_set d k v)) <-> k' = k \/ In k' (map fst d).
Proof.
  induction d as [|[k0 v0] d IH]; simpl.
  - intuition (subst; auto).
  - destruct (String.eqb_spec k k0) as [->|]; simpl; [intuition (subst; auto)|].
    rewrite IH. intuition (subst; auto).
Qed.

Lemma nodup_set {V} (d : Dict V) k v :
  NoDup (map fst d) -> NoDup (map fst (dict_set d k v)).
Proof.
  induction d as [|[k0 v0] d IH]; simpl; intros Hnd.
  - constructor; [intros []|constructor].
  - inversion Hnd as [|? ? Hnin Hnd']; subst.
    destruct (String.eqb_spec k k0) as [->|Hne]; simpl.
    + constructor; assumption.
    + constructor; [|auto]. rewrite keys_set. intros [->|]; tauto.
Qed.

Lemma in_set {V} (d : Dict V) k v k' v' :
  NoDup (map fst d) -> In (k', v') (dict_set d k v) ->
  (k' = k /\ v' = v) \/ (k' <> k /\ In (k', v') d).
Proof.
  induction d as [|[k0 v0] d IH]; simpl; intros Hnd Hin.
  - destruct Hin as [[= -> ->]|[]]. auto.
  - inversion Hnd as [|? ? Hnin Hnd']; subst.
    destruct (String.eqb_spec k k0) as [->|Hne]; simpl in Hin.
    + destruct Hin as [[= -> ->]|Hin]; [auto|].
      right. split; [|auto]. intros ->. apply Hnin.
      apply (in_map fst) in Hin. exact Hin.
    + destruct Hin as [[= -> ->]|Hin]; [right; auto|].
      destruct (IH Hnd' Hin) as [|[? ?]]; auto.
Qed.

Lemma get_in {V} (d : Dict V) k a : dict_get d k = Some a -> In (k, a) d.
Proof.
  induction d as [|[k0 v0] d IH]; simpl; [discriminate|].
  destruct (String.eqb_spec k k0) as [->|]; [intros [= ->]; auto|auto].
Qed.

Lemma in_get {V} (d : Dict V) k a :
  NoDup (map fst d) -> In (k, a) d -> dict_get d k = Some a.
Proof.
  induction d as [|[k0 v0] d IH]; simpl; intros Hnd Hin; [destruct Hin|].
  inversion Hnd as [|? ? Hnin Hnd']; subst.
  destruct Hin as [[= -> ->]|Hin].
  - rewrite String.eqb_refl. reflexivity.
  - destruct (String.eqb_spec k k0) as [->|]; [|auto].
    exfalso. apply Hnin. apply (in_map fst) in Hin. exact Hin.
Qed.

Lemma get_none {V} (d : Dict V) k : dict_get d k = None -> ~ In k (map fst d).
Proof.
  induction d as [|[k0 v0] d IH]; simpl; [auto|].
  destruct (String.eqb_spec k k0) as [->|Hne]; [discriminate|].
  intros H [->|Hin]; [congruence|exact (IH H Hin)].
Qed.

Lemma forall_set {V} (P : string * V -> Prop) (d : Dict V) k v :
  Forall P d -> P (k, v) -> Forall P (dict_set d k v).
Proof.
  induction d as [|[k0 v0] d IH]; simpl; intros Hd Hp.
  - constructor; [exact Hp|constructor].
  - inversion Hd; subst.
    destruct (String.eqb_spec k k0) as [->|]; constructor; auto.
Qed.

End DictFacts.

(* ------------------------------------------------------------------ *)
(** ** Arithmetic of the scores *)

Module ScoreFacts.

Lemma Qlt_bool_iff x y : Qlt_bool x y = true <-> (x < y)%Q.
Proof.
  unfold Qlt_bool. rewrite negb_true_iff. split; intros H.
  - apply Qnot_le_lt. intros Hle. apply Qle_bool_iff in Hle. congruence.
  - destruct (Qle_bool y x) eqn:E; [|reflexivity].
    apply Qle_bool_iff in E. exfalso. apply (Qlt_not_le x y); assumption.
Qed.

Lemma Qlt_bool_false x y : Qlt_bool x y = false -> (y <= x)%Q.
Proof.
  intros H. apply Qnot_lt_le. intros Hlt. apply Qlt_bool_iff in Hlt. congruence.
Qed.

Lemma Qfloor_Qeq x y : (x == y)%Q -> Qfloor x = Qfloor y.
Proof.
  intros H. apply Z.le_antisymm; apply Qfloor_resp_le; rewrite H; apply Qle_refl.
Qed.

Lemma py_int_nonneg x : (0 <= x)%Q -> py_int x = Qfloor x.
Proof.
  intros H. unfold py_int. apply Qle_bool_iff in H. rewrite H. reflexivity.
Qed.

Lemma Qclamp_bounds x lo hi : (lo <= hi)%Q -> (lo <= Qclamp x lo hi <= hi)%Q.
Proof.
  intros H. unfold Qclamp. split.
  - apply Q.le_max_l.
  - apply Q.max_lub; [exact H|apply Q.le_min_l].
Qed.

Lemma Qclamp01_bounds x : (0 <= Qclamp01 x <= 1)%Q.
Proof. apply (Qclamp_bounds x 0 1). discriminate. Qed.

Lemma Qclamp01_id x : (0 <= x <= 1)%Q -> (Qclamp01 x == x)%Q.
Proof.
  intros [H0 H1]. unfold Qclamp01.
  rewrite (Q.min_r 1 x H1). apply Q.max_r. exact H0.
Qed.

(** Half-to-even rounding of a value between two integers stays between
    them. *)
Lemma round_half_even_bounds (x : Q) (lo hi : Z) :
  (inject_Z lo <= x <= inject_Z hi)%Q -> lo <= round_half_even x <= hi.
Proof.
  intros [Hlo Hhi]. unfold round_half_even.
  pose proof (Qfloor_le x) as Hf. pose proof (Qlt_floor x) as Hf1.
  assert (Hl : lo <= Qfloor x).
  { rewrite <- (Qfloor_Z lo). apply Qfloor_resp_le. exact Hlo. }
  assert (Hh : Qfloor x <= hi).
  { rewrite <- (Qfloor_Z hi). apply Qfloor_resp_le. exact Hhi. }
  destruct (Qlt_bool (x - inject_Z (Qfloor x)) (1 # 2)) eqn:E1; [lia|].
  apply Qlt_bool_false in E1.
  assert (Hlt : Qfloor x < hi).
  { rewrite Zlt_Qlt. lra. }
  destruct (Qlt_bool (1 # 2) (x - inject_Z (Qfloor x))); [lia|].
  destruct (Z.even (Qfloor x)); lia.
Qed.

Lemma score_0_10_bounds value max_value : 0 <= score_0_10 value max_value <= 10.
Proof.
  unfold score_0_10. destruct (max_value <=? 0); [lia|].
  apply round_half_even_bounds. apply Qclamp_bounds. discriminate.
Qed.

Lemma band_green d : band_from_dcs d = "Green" <-> 80 <= d.
Proof.
  unfold band_from_dcs.
  destruct (80 <=? d) eqn:E1; [apply Z.leb_le in E1; tauto|].
  apply Z.leb_gt in E1.
  destruct (60 <=? d); split; intros H; try discriminate; lia.
Qed.

Lemma band_yellow d : band_from_dcs d = "Yellow" <-> 60 <= d <= 79.
Proof.
  unfold band_from_dcs.
  destruct (80 <=? d) eqn:E1; [apply Z.leb_le in E1; split; [discriminate|lia]|].
  apply Z.leb_gt in E1.
  destruct (60 <=? d) eqn:E2; [apply Z.leb_le in E2; split; [lia|reflexivity]|].
  apply Z.leb_gt in E2. split; [discriminate|lia].
Qed.

Lemma band_red d : band_from_dcs d = "Red" <-> d < 60.
Proof.
  unfold band_from_dcs.
  destruct (80 <=? d) eqn:E1; [apply Z.leb_le in E1; split; [discriminate|lia]|].
  apply Z.leb_gt in E1.
  destruct (60 <=? d) eqn:E2; [apply Z.leb_le in E2; split; [discriminate|lia]|].
  apply Z.leb_gt in E2. split; [lia|reflexivity].
Qed.

Lemma dcs_bounds p b s d c t h : 0 <= dcs_from_signals p b s d c t h <= 100.
Proof.
  unfold dcs_from_signals. split.
  - apply Z.le_max_l.
  - apply Z.max_lub; [lia|apply Z.le_min_l].
Qed.

Lemma progress_penalty_bounds p : 0 <= progress_penalty p <= 30.
Proof.
  unfold progress_penalty. pose proof (Qclamp01_bounds p) as [H0 H1].
  rewrite py_int_nonneg by lra.
  split.
  - apply (Z.le_trans _ (Qfloor 0)); [reflexivity|].
    apply Qfloor_resp_le. lra.
  - apply (Z.le_trans _ (Qfloor 30)); [|reflexivity].
    apply Qfloor_resp_le. lra.
Qed.

End ScoreFacts.

(* ------------------------------------------------------------------ *)
(** ** The stable sort *)

Module SortFacts.

Lemma insert_perm x l : Permutation (insert_sorted x l) (x :: l).
Proof.
  induction l as [|y l IH]; simpl; [reflexivity|].
  destruct (sort_key_lt x y); [reflexivity|].
  rewrite IH. apply perm_swap.
Qed.

Lemma sort_perm_acc l acc :
  Permutation (fold_left (fun acc x => insert_sorted x acc) l acc) (rev l ++ acc).
Proof.
  revert acc. induction l as [|x l IH]; intros acc; simpl; [reflexivity|].
  rewrite IH, insert_perm, <- app_assoc. simpl.
  apply Permutation_app_head. reflexivity.
Qed.

Lemma sort_in x l : In x (sort_snap l) <-> In x l.
Proof.
  unfold sort_snap. rewrite (sort_perm_acc l []), app_nil_r.
  split; intros H; [apply in_rev|apply in_rev in H]; exact H.
Qed.

Lemma sort_key_lt_asym x y : sort_key_lt x y = true -> sort_key_lt y x = false.
Proof.
  unfold sort_key_lt. rewrite (String.compare_antisym (Snap.band y)).
  destruct (String.compare (Snap.band x) (Snap.band y)); simpl;
    try discriminate; [|reflexivity].
  intros H. apply Z.ltb_lt in H. apply Z.ltb_ge. lia.
Qed.

Definition le_rel (x y : Snap.t) : Prop := sort_key_le x y = true.

Lemma insert_sorted_ok x l : Sorted le_rel l -> Sorted le_rel (insert_sorted x l).
Proof.
  induction l as [|y l IH]; simpl; intros Hs.
  - repeat constructor.
  - destruct (sort_key_lt x y) eqn:E.
    + constructor; [exact Hs|]. constructor. unfold le_rel, sort_key_le.
      rewrite (sort_key_lt_asym _ _ E). reflexivity.
    + inversion Hs as [|? ? Hs' Hhd]; subst.
      constructor; [auto|].
      destruct l as [|z l]; simpl.
      * constructor. unfold le_rel, sort_key_le. rewrite E. reflexivity.
      * inversion Hhd; subst.
        destruct (sort_key_lt x z); constructor; [|assumption].
        unfold le_rel, sort_key_le. rewrite E. reflexivity.
Qed.

Lemma sort_sorted l : Sorted le_rel (sort_snap l).
Proof.
  unfold sort_snap.
  assert (H : forall acc, Sorted le_rel acc ->
            Sorted le_rel (fold_left (fun acc x => insert_sorted x acc) l acc)).
  { induction l as [|x l IH]; simpl; intros acc Hacc; [exact Hacc|].
    apply IH. apply insert_sorted_ok. exact Hacc. }
  apply H. constructor.
Qed.

End SortFacts.

(* ------------------------------------------------------------------ *)
(** ** Transform outputs *)

Module TransformFacts.

Lemma transform_records parse_date rows w snap i :
  transform parse_date rows w = Ok snap -> In i (initiatives snap) ->
  exists we kv, parse_date w = Some we /\ In kv (aggregate rows)
                /\ i = finalize we (snd kv).
Proof.
  unfold transform. destruct (parse_date w) as [we|]; [|discriminate].
  intros [= <-] Hin. simpl in Hin. apply (proj1 (SortFacts.sort_in _ _)) in Hin.
  apply in_map_iff in Hin. destruct Hin as [kv [<- Hkv]].
  exists we, kv. auto.
Qed.

End TransformFacts.

(* ------------------------------------------------------------------ *)
(** ** The aggregation fold *)

Module AggFacts.
Import DictFacts.

Lemma sumZ_snoc l x : sumZ (l ++ [x]) = sumZ l + x.
Proof. unfold sumZ. rewrite fold_right_app. simpl. induction l; simpl; lia. Qed.

Lemma max_from_zero_snoc l x : max_from_zero (l ++ [x]) = Z.max (max_from_zero l) x.
Proof. unfold max_from_zero. rewrite fold_left_app. reflexivity. Qed.

Section Fold.
Variable parent_map : Dict string.
Variable row_index : Dict Row.

Definition resolves_to (k : string) (r : Row) : bool :=
  match find_initiative_key (key r) parent_map row_index with
  | Some k' => String.eqb k' k
  | None => false
  end.

Definition res (k : string) (l : list Row) : list Row := filter (resolves_to k) l.

Lemma res_snoc k l r :
  res k (l ++ [r]) = if resolves_to k r then (res k l ++ [r])%list else res k l.
Proof.
  unfold res. rewrite filter_app. simpl.
  destruct (resolves_to k r); [reflexivity|apply app_nil_r].
Qed.

(** The rollup fields of every entry are the fold of the rows seen so far
    that resolve to its key. *)
Definition Inv (l : list Row) (T : Dict Agg.t) : Prop :=
  NoDup (map fst T) /\
  (forall k a, In (k, a) T ->
     k <> "" /\ Agg.id a = k
     /\ Agg.dependency_count a = sumZ (map blocks (res k l))
     /\ Agg.blocked_days a = max_from_zero (map blocked_days (res k l))
     /\ Agg.scope_changes_14d a = sumZ (map scope_changes_14d (res k l))) /\
  (forall k, k <> "" -> ~ In k (map fst T) -> res k l = []).

Lemma Inv_step l T r : Inv l T -> Inv (l ++ [r]) (aggregate_step parent_map row_index T r).
Proof.
  intros (Hnd & Hin & Hout). unfold aggregate_step.
  destruct (find_initiative_key (key r) parent_map row_index) as [ikey|] eqn:Ef.
  2:{ assert (Hr : forall k, res k (l ++ [r]) = res k l).
      { intros k. rewrite res_snoc. unfold resolves_to. rewrite Ef. reflexivity. }
      split; [exact Hnd|split]; intros; rewrite Hr; auto. }
  destruct (String.eqb_spec ikey "") as [Hemp|Hne].
  { assert (Hr : forall k, k <> "" -> res k (l ++ [r]) = res k l).
    { intros k Hk. rewrite res_snoc. unfold resolves_to. rewrite Ef.
      destruct (String.eqb_spec ikey k); [congruence|reflexivity]. }
    split; [exact Hnd|split].
    - intros k a Hka. destruct (Hin k a Hka) as [Hk Hrest].
      rewrite (Hr k Hk). auto.
    - intros k Hk Hnin. rewrite (Hr k Hk). auto. }
  assert (Hother : forall k, k <> ikey -> res k (l ++ [r]) = res k l).
  { intros k Hk. rewrite res_snoc. unfold resolves_to. rewrite Ef.
    destruct (String.eqb_spec ikey k); [congruence|reflexivity]. }
  assert (Hself : res ikey (l ++ [r]) = (res ikey l ++ [r])%list).
  { rewrite res_snoc. unfold resolves_to. rewrite Ef, String.eqb_refl. reflexivity. }
  set (agg := match dict_get T ikey with Some a => a | None => placeholder ikey end).
  assert (Hagg : Agg.id agg = ikey
                 /\ Agg.dependency_count agg = sumZ (map blocks (res ikey l))
                 /\ Agg.blocked_days agg = max_from_zero (map blocked_days (res ikey l))
                 /\ Agg.scope_changes_14d agg
                    = sumZ (map scope_changes_14d (res ikey l))).
  { subst agg. destruct (dict_get T ikey) as [a|] eqn:Eg.
    - apply get_in in Eg. destruct (Hin _ _ Eg) as (_ & H). exact H.
    - apply get_none in Eg. rewrite (Hout ikey Hne Eg). simpl. auto. }
  split; [apply nodup_set; exact Hnd|split].
  - intros k a Hka. destruct (in_set _ _ _ _ _ Hnd Hka) as [[-> ->]|[Hk Hka']].
    + destruct Hagg as (Hid & Hdep & Hbd & Hsc).
      rewrite Hself, !map_app. clearbody agg. unfold fold_row.
      cbn -[sumZ max_from_zero res].
      rewrite !sumZ_snoc, max_from_zero_snoc, Hid, Hdep, Hbd, Hsc. auto.
    + rewrite (Hother k Hk). auto.
  - intros k Hk Hnin. rewrite keys_set in Hnin.
    assert (k <> ikey) by tauto. rewrite (Hother k); [|assumption].
    apply Hout; tauto.
Qed.

Lemma Inv_fold rs : forall l T,
  Inv l T -> Inv (l ++ rs) (fold_left (aggregate_step parent_map row_index) rs T).
Proof.
  induction rs as [|r rs IH]; simpl; intros l T H.
  - rewrite app_nil_r. exact H.
  - replace (l ++ r :: rs)%list with ((l ++ [r]) ++ rs)%list by (rewrite <- app_assoc; reflexivity).
    apply IH. apply Inv_step. exact H.
Qed.

(** Points: [0 <= done_points <= total_points] is kept by every step when
    story points are non-negative. *)
Definition points_ok (kv : string * Agg.t) : Prop :=
  0 <= Agg.done_points (snd kv) <= Agg.total_points (snd kv).

Lemma points_step T r :
  0 <= story_points r -> Forall points_ok T ->
  Forall points_ok (aggregate_step parent_map row_index T r).
Proof.
  intros Hp HT. unfold aggregate_step.
  destruct (find_initiative_key (key r) parent_map row_index) as [ikey|]; [|exact HT].
  destruct (String.eqb ikey ""); [exact HT|].
  apply forall_set; [exact HT|].
  assert (Ha : points_ok (ikey, match dict_get T ikey with
                                | Some a => a | None => placeholder ikey end)).
  { destruct (dict_get T ikey) as [a|] eqn:Eg.
    - apply get_in in Eg. rewrite Forall_forall in HT. exact (HT _ Eg).
    - unfold points_ok. simpl. lia. }
  revert Ha. unfold points_ok, fold_row. simpl.
  destruct (is_points_type (issue_type r)), (String.eqb (status r) "Done"); simpl; lia.
Qed.

End Fold.

End AggFacts.

Module InitFacts.
Import DictFacts AggFacts.

(** Every entry of the table before the fold is a fresh [InitiativeAgg]
    keyed by the key of some Initiative row. *)
Definition fresh_entry (rows : list Row) (kv : string * Agg.t) : Prop :=
  (exists r, In r rows /\ key r = fst kv)
  /\ exists nm due, snd kv = Agg.init (fst kv) nm due.

Lemma initial_shape rows :
  NoDup (map fst (initial_initiatives rows))
  /\ Forall (fresh_entry rows) (initial_initiatives rows).
Proof.
  unfold initial_initiatives.
  assert (H : forall l T,
    (forall r, In r l -> In r rows) ->
    NoDup (map fst T) /\ Forall (fresh_entry rows) T ->
    NoDup (map fst (fold_left (fun m r =>
       if is_initiative_type (issue_type r)
       then dict_set m (key r) (Agg.init (key r) (summary r) (due_date r))
       else m) l T))
    /\ Forall (fresh_entry rows) (fold_left (fun m r =>
       if is_initiative_type (issue_type r)
       then dict_set m (key r) (Agg.init (key r) (summary r) (due_date r))
       else m) l T)).
  { induction l as [|r l IH]; simpl; intros T Hsub [Hnd HT]; [auto|].
    apply IH; [intros; apply Hsub; auto|].
    destruct (is_initiative_type (issue_type r)); [|auto].
    split; [apply nodup_set; exact Hnd|].
    apply forall_set; [exact HT|]. split.
    - exists r. simpl. auto.
    - simpl. eauto. }
  apply H; [auto|]. split; constructor.
Qed.

Lemma Inv_initial rows :
  Forall (fun r => key r <> "") rows ->
  Inv (build_parent_map rows) (index_rows rows) [] (initial_initiatives rows).
Proof.
  intros Hk. destruct (initial_shape rows) as [Hnd Hsh].
  split; [exact Hnd|split].
  - intros k a Hka. rewrite Forall_forall in Hsh.
    destruct (Hsh _ Hka) as [[r [Hr Hkr]] [nm [due Ha]]]. simpl in *. subst a.
    rewrite Forall_forall in Hk. subst k. split; [apply Hk; exact Hr|].
    simpl. auto.
  - intros k _ _. reflexivity.
Qed.

Lemma aggregate_Inv rows :
  Forall (fun r => key r <> "") rows ->
  Inv (build_parent_map rows) (index_rows rows) rows (aggregate rows).
Proof.
  intros Hk. unfold aggregate.
  apply (Inv_fold _ _ rows [] _ (Inv_initial rows Hk)).
Qed.

(** A property of entries kept by every step of the fold. *)
Lemma fold_preserves (P : string * Agg.t -> Prop) (Q : Row -> Prop) pm ri rs T :
  (forall k, P (k, placeholder k)) ->
  (forall k a r, Q r -> P (k, a) -> P (k, fold_row a r)) ->
  Forall Q rs -> Forall P T ->
  Forall P (fold_left (aggregate_step pm ri) rs T).
Proof.
  intros Hph Hrow. revert T.
  induction rs as [|r rs IH]; simpl; intros T Hq HT; [exact HT|].
  inversion Hq; subst. apply IH; [assumption|].
  unfold aggregate_step.
  destruct (find_initiative_key (key r) pm ri) as [ikey|]; [|exact HT].
  destruct (String.eqb ikey ""); [exact HT|].
  apply forall_set; [exact HT|]. apply Hrow; [assumption|].
  destruct (dict_get T ikey) as [a|] eqn:Eg; [|apply Hph].
  apply get_in in Eg. rewrite Forall_forall in HT. exact (HT _ Eg).
Qed.

Lemma aggregate_preserves (P : string * Agg.t -> Prop) (Q : Row -> Prop) rows :
  (forall k nm due, P (k, Agg.init k nm due)) ->
  (forall k a r, Q r -> P (k, a) -> P (k, fold_row a r)) ->
  Forall Q rows -> Forall P (aggregate rows).
Proof.
  intros Hinit Hrow Hq. unfold aggregate.
  apply fold_preserves with (Q := Q); [intros; apply Hinit|exact Hrow|exact Hq|].
  destruct (initial_shape rows) as [_ Hsh].
  eapply Forall_impl; [|exact Hsh].
  intros [k a] [_ [nm [due Ha]]]. simpl in Ha. subst a. apply Hinit.
Qed.

End InitFacts.

Lemma max_from_zero_spec l :
  Forall (fun x => x <= max_from_zero l) l
  /\ (max_from_zero l = 0 \/ In (max_from_zero l) l).
Proof.
  unfold max_from_zero.
  assert (H : forall acc,
    Forall (fun x => x <= fold_left Z.max l acc) l /\ acc <= fold_left Z.max l acc
    /\ (fold_left Z.max l acc = acc \/ In (fold_left Z.max l acc) l)).
  { induction l as [|x l IH]; simpl; intros acc.
    - split; [constructor|split; [lia|auto]].
    - destruct (IH (Z.max acc x)) as (Hf & Hle & Hor). split; [constructor; [lia|exact Hf]|].
      split; [lia|].
      destruct Hor as [Heq|Hin]; [|auto].
      rewrite Heq. destruct (Z.max_spec acc x) as [[_ ->]|[_ ->]]; auto. }
  destruct (H 0) as (Hf & _ & Hor). auto.
Qed.

Module FinalizeFacts.
Import ScoreFacts.

Lemma finalize_dcs_band we a :
  0 <= Snap.dcs_current (finalize we a) <= 100
  /\ Snap.band (finalize we a) = band_from_dcs (Snap.dcs_current (finalize we a)).
Proof. simpl. split; [apply dcs_bounds|reflexivity]. Qed.

Lemma finalize_prior_ge we a :
  0 <= Agg.scope_changes_14d a ->
  Snap.dcs_current (finalize we a) <= Snap.dcs_prior (finalize we a).
Proof.
  intros Hs. simpl.
  pose proof (dcs_bounds (pct_done_of (Agg.done_points a) (Agg.total_points a))
      (Agg.blocked_days a) (Agg.scope_changes_14d a) (Agg.dependency_count a)
      (Agg.critical_dependency a) (option_map (fun d => d - we) (Agg.due_date a))
      (has_blocked_items (Agg.status_notes a))) as Hd.
  set (d := dcs_from_signals _ _ _ _ _ _ _) in *.
  destruct (has_blocked_items (Agg.status_notes a)); lia.
Qed.

End FinalizeFacts.

Example fixture_snapshot_values :
  map (fun i => (Snap.id i, Snap.dcs_current i, Snap.band i))
      (initiatives fixture_snapshot)
  = [("INIT-1", 50, "Red"); ("INIT-2", 57, "Red")].
Proof. vm_compute. reflexivity. Qed.

(** The two scenarios of the specification. *)
Example scenario_all_done :
  option_map (fun s => map (fun i => (Snap.dcs_current i, Snap.band i)) (initiatives s))
    (match transform fixture_parse_date
             [init_row "INIT-1" (Some 7) 0; story_row "STORY-1" "INIT-1" "Done" 10 0 0 0]
             "2026-02-06" with Ok s => Some s | Err _ => None end)
  = Some [(100, "Green")].
Proof. vm_compute. reflexivity. Qed.

Example scenario_all_penalties :
  option_map (fun s => map (fun i => (Snap.dcs_current i, Snap.band i)) (initiatives s))
    (match transform fixture_parse_date
             [mkRow "INIT-1" "Initiative" "INIT-1" "Not Started" "" 0 "" "" (Some 5) 0 5 3;
              story_row "STORY-1" "INIT-1" "Blocked" 10 0 0 0]
             "2026-02-06" with Ok s => Some s | Err _ => None end)
  = Some [(10, "Red")].
Proof. vm_compute. reflexivity. Qed.

(* ================================================================== *)
(** * Claims *)

(** C1 (amended): when every row's story points are non-negative, every
    initiative aggregate left by the fold satisfies
    [0 <= done_points <= total_points]. *)
Theorem aggregate_done_le_total (rows : list Row)
    (Hpts : Forall (fun r => 0 <= story_points r) rows) :
  forall k a, In (k, a) (aggregate rows) ->
  0 <= Agg.done_points a <= Agg.total_points a.
Proof.
  assert (H : Forall AggFacts.points_ok (aggregate rows)).
  { apply InitFacts.aggregate_preserves with (Q := fun r => 0 <= story_points r).
    - intros k nm due. unfold AggFacts.points_ok. simpl. lia.
    - intros k a r Hr. unfold AggFacts.points_ok, fold_row. simpl.
      destruct (is_points_type (issue_type r)), (String.eqb (status r) "Done");
        simpl; lia.
    - exact Hpts. }
  intros k a Hin. rewrite Forall_forall in H. exact (H _ Hin).
Qed.

Lemma aggregate_done_le_total_witness :
  Forall (fun r => 0 <= story_points r) fixture_rows
  /\ (forall k a, In (k, a) (aggregate fixture_rows) ->
      0 <= Agg.done_points a <= Agg.total_points a).
Proof.
  assert (H : Forall (fun r => 0 <= story_points r) fixture_rows)
    by (repeat constructor; simpl; lia).
  split; [exact H|exact (aggregate_done_le_total fixture_rows H)].
Defined.

(** C1 counterexample: a Done story whose Story Points cell is "-5" leaves
    its initiative with [done_points = total_points = -5]. *)
Lemma aggregate_done_le_total_negative_points :
  ~ (forall k a, In (k, a) (aggregate negative_points_rows) ->
     0 <= Agg.done_points a <= Agg.total_points a).
Proof.
  intros H. remember (aggregate negative_points_rows) as T eqn:ET.
  vm_compute in ET. subst T.
  specialize (H _ _ (or_introl eq_refl)). simpl in H. lia.
Qed.

Module FloatFacts.

Lemma inject_pos z : 0 < z -> (0 < inject_Z z)%Q.
Proof. intros H. change (inject_Z 0 < inject_Z z)%Q. rewrite <- Zlt_Qlt. exact H. Qed.

Lemma inject_nz z : 0 < z -> ~ (inject_Z z == 0)%Q.
Proof. intros H E. pose proof (inject_pos z H) as P. rewrite E in P. apply (Qlt_irrefl 0), P. Qed.

Lemma rne_div_err N D : 0 < D ->
  (Qabs (inject_Z (rne_div N D) - inject_Z N / inject_Z D) <= 1 # 2)%Q.
Proof.
  intros HD.
  assert (Hz : 2 * Z.abs (rne_div N D * D - N) <= D).
  { unfold rne_div.
    pose proof (Z.div_mod N D ltac:(lia)) as Hdm.
    pose proof (Z.mod_pos_bound N D HD) as Hb.
    set (q := N / D) in *. set (r := N mod D) in *.
    destruct (Z.ltb_spec (2 * r) D); [nia|].
    destruct (Z.ltb_spec D (2 * r)); [nia|].
    destruct (Z.even q); nia. }
  set (m := rne_div N D) in *.
  pose proof (inject_pos D HD) as HDq.
  assert (E : (inject_Z m - inject_Z N / inject_Z D == inject_Z (m * D - N) / inject_Z D)%Q).
  { unfold Z.sub. rewrite inject_Z_plus, inject_Z_opp, inject_Z_mult.
    field. apply inject_nz, HD. }
  rewrite E. apply Qabs_Qle_condition.
  assert (H1 : (inject_Z (- D) <= inject_Z (2 * (m * D - N)))%Q) by (rewrite <- Zle_Qle; lia).
  assert (H2 : (inject_Z (2 * (m * D - N)) <= inject_Z D)%Q) by (rewrite <- Zle_Qle; lia).
  rewrite inject_Z_opp in H1. rewrite inject_Z_mult in H1, H2.
  change (inject_Z 2) with 2%Q in H1, H2.
  split.
  - apply Qle_shift_div_l; [exact HDq|]. lra.
  - apply Qle_shift_div_r; [exact HDq|]. lra.
Qed.

Lemma rne_div_nonneg N D : 0 <= N -> 0 < D -> 0 <= rne_div N D.
Proof.
  intros HN HD. unfold rne_div.
  pose proof (Z.div_pos N D HN HD).
  destruct (_ <? _); [lia|]. destruct (_ <? _); [lia|]. destruct (Z.even _); lia.
Qed.

Lemma pow2_pos e : (0 < 2 ^ e)%Q.
Proof. apply Qpower_0_lt. reflexivity. Qed.

Lemma pow2_nonneg_exp e : 0 <= e -> (2 ^ e == inject_Z (2 ^ e))%Q.
Proof. intros H. symmetry. apply (Zpower_Qpower 2 e H). Qed.

Lemma pow2_neg_exp e : e < 0 -> (2 ^ e == / inject_Z (2 ^ (- e)))%Q.
Proof.
  intros H. rewrite (Zpower_Qpower 2 (- e)) by lia.
  rewrite <- Qpower_opp. rewrite Z.opp_involutive. reflexivity.
Qed.

(** Rounding at a fixed exponent [e] is off by at most half a unit. *)
Lemma round_at_err n d e : 0 < d ->
  (Qabs ((if 0 <=? e then inject_Z (rne_div n (d * 2 ^ e)) * 2 ^ e
          else inject_Z (rne_div (n * 2 ^ (- e)) d) * 2 ^ e)
         - inject_Z n / inject_Z d) <= (1 # 2) * 2 ^ e)%Q.
Proof.
  intros Hd.
  assert (Hrep : exists N D, 0 < D
            /\ ((if 0 <=? e then inject_Z (rne_div n (d * 2 ^ e)) * 2 ^ e
                 else inject_Z (rne_div (n * 2 ^ (- e)) d) * 2 ^ e)
                = inject_Z (rne_div N D) * 2 ^ e)%Q
            /\ (inject_Z n / inject_Z d == inject_Z N / inject_Z D * 2 ^ e)%Q).
  { destruct (Z.leb_spec 0 e) as [He|He].
    - exists n, (d * 2 ^ e). split; [apply Z.mul_pos_pos; [lia|apply Z.pow_pos_nonneg; lia]|].
      split; [reflexivity|].
      rewrite pow2_nonneg_exp by exact He. rewrite inject_Z_mult. field.
      split; apply inject_nz; [apply Z.pow_pos_nonneg; lia|exact Hd].
    - exists (n * 2 ^ (- e)), d. split; [exact Hd|]. split; [reflexivity|].
      rewrite pow2_neg_exp by exact He. rewrite inject_Z_mult. field.
      split; apply inject_nz; [apply Z.pow_pos_nonneg; lia|exact Hd]. }
  destruct Hrep as (N & D & HD & -> & ->).
  assert (E : (inject_Z (rne_div N D) * 2 ^ e - inject_Z N / inject_Z D * 2 ^ e
               == (inject_Z (rne_div N D) - inject_Z N / inject_Z D) * 2 ^ e)%Q) by ring.
  rewrite E, Qabs_Qmult, (Qabs_pos (2 ^ e)) by (apply Qlt_le_weak, pow2_pos).
  apply Qmult_le_compat_r; [apply rne_div_err, HD|apply Qlt_le_weak, pow2_pos].
Qed.

Lemma pow2_le_div k n d : 0 < n -> 0 < d ->
  (0 <= k -> d * 2 ^ k <= n) -> (k < 0 -> d <= n * 2 ^ (- k)) ->
  (2 ^ k <= inject_Z n / inject_Z d)%Q.
Proof.
  intros Hn Hd H1 H2. apply Qle_shift_div_l; [apply inject_pos, Hd|].
  destruct (Z.leb_spec 0 k) as [Hk|Hk].
  - rewrite pow2_nonneg_exp by exact Hk. rewrite <- inject_Z_mult, <- Zle_Qle.
    specialize (H1 Hk). lia.
  - rewrite pow2_neg_exp by exact Hk.
    assert (P : 0 < 2 ^ (- k)) by (apply Z.pow_pos_nonneg; lia).
    rewrite Qmult_comm. change (inject_Z d * / inject_Z (2 ^ (- k)))%Q
      with (inject_Z d / inject_Z (2 ^ (- k)))%Q.
    apply Qle_shift_div_r; [apply inject_pos, P|].
    rewrite <- inject_Z_mult, <- Zle_Qle. apply H2, Hk.
Qed.

Lemma floor_log2_spec n d : 0 < n -> 0 < d ->
  (2 ^ floor_log2 n d <= inject_Z n / inject_Z d)%Q.
Proof.
  intros Hn Hd.
  pose proof (Z.log2_spec n Hn) as [Ln1 Ln2].
  pose proof (Z.log2_spec d Hd) as [Ld1 Ld2].
  pose proof (Z.log2_nonneg n). pose proof (Z.log2_nonneg d).
  set (ln := Z.log2 n) in *. set (ld := Z.log2 d) in *.
  rewrite Z.pow_succ_r in Ln2, Ld2 by lia.
  apply pow2_le_div; [exact Hn|exact Hd| |]; unfold floor_log2; fold ln ld.
  - destruct (Z.leb_spec 0 (ln - ld)) as [Hc|Hc].
    + destruct (Z.leb_spec (d * 2 ^ (ln - ld)) n); [lia|].
      intros Hk. (* ln - ld >= 1 *)
      assert (E : 2 ^ ln = 2 * 2 ^ ld * 2 ^ (ln - ld - 1)).
      { rewrite <- Z.pow_succ_r by lia. rewrite <- Z.pow_add_r by lia. f_equal. lia. }
      assert (0 < 2 ^ (ln - ld - 1)) by (apply Z.pow_pos_nonneg; lia). nia.
    + destruct (Z.leb_spec d (n * 2 ^ (- (ln - ld)))); lia.
  - destruct (Z.leb_spec 0 (ln - ld)) as [Hc|Hc].
    + destruct (Z.leb_spec (d * 2 ^ (ln - ld)) n); [lia|].
      intros Hk. assert (ln = ld) by lia.
      replace (- (ln - ld - 1)) with 1 by lia. rewrite Z.pow_1_r.
      assert (2 ^ ln = 2 ^ ld) by (f_equal; lia). nia.
    + destruct (Z.leb_spec d (n * 2 ^ (- (ln - ld)))); [lia|].
      intros Hk.
      assert (E : 2 * 2 ^ ld = 2 ^ ln * 2 ^ (- (ln - ld - 1))).
      { rewrite <- Z.pow_succ_r by lia. rewrite <- Z.pow_add_r by lia. f_equal. lia. }
      assert (0 < 2 ^ (- (ln - ld - 1))) by (apply Z.pow_pos_nonneg; lia). nia.
Qed.

Lemma eps_facts : (0 < eps53 /\ 0 < tiny1075 /\ tiny1075 <= eps53 * (1 # 1000))%Q.
Proof.
  split; [reflexivity|]. unfold tiny1075. split.
  - apply Qinv_lt_0_compat. apply inject_pos. apply Z.pow_pos_nonneg; lia.
  - apply Qle_bool_iff. vm_compute. reflexivity.
Qed.

Lemma round_pos_err n d : 0 < n -> 0 < d ->
  (Qabs (round_pos n d - inject_Z n / inject_Z d)
   <= inject_Z n / inject_Z d * eps53 + tiny1075)%Q.
Proof.
  intros Hn Hd. unfold round_pos.
  set (k := floor_log2 n d).
  pose proof (floor_log2_spec n d Hn Hd) as Hk. fold k in Hk.
  set (e := Z.max (k - 52) (-1074)).
  eapply Qle_trans; [apply round_at_err, Hd|].
  assert (Hx : (0 <= inject_Z n / inject_Z d)%Q).
  { apply Qle_shift_div_l; [apply inject_pos, Hd|]. rewrite Qmult_0_l.
    apply (Qlt_le_weak 0), inject_pos, Hn. }
  pose proof eps_facts as (He1 & He2 & He3).
  destruct (Z.max_spec (k - 52) (-1074)) as [[_ Hm]|[_ Hm]]; fold e in Hm; rewrite Hm.
  - assert (T : (2 ^ (-1074) == 2 * tiny1075)%Q).
    { unfold tiny1075. rewrite pow2_neg_exp by lia. apply Qle_bool_iff in He3.
      vm_compute. reflexivity. }
    rewrite T. assert (0 <= inject_Z n / inject_Z d * eps53)%Q.
    { apply Qmult_le_0_compat; lra. }
    lra.
  - assert (T : (2 ^ (k - 52) == 2 ^ k * (1 # 4503599627370496))%Q).
    { unfold Z.sub. rewrite Qpower_plus by discriminate. reflexivity. }
    rewrite T. unfold eps53. lra.
Qed.

Lemma round64_err x : (Qabs (round64 x - x) <= Qabs x * eps53 + tiny1075)%Q.
Proof.
  pose proof eps_facts as (He1 & He2 & He3).
  destruct x as [[|n|n] d]; unfold round64; simpl Qnum; simpl Qden.
  - assert (E : (0 - (0 # d) == 0)%Q) by (unfold Qeq; simpl; lia).
    rewrite E. change (Qabs 0) with 0%Q. assert (0 <= Qabs (0 # d) * eps53)%Q.
    { apply Qmult_le_0_compat; [apply Qabs_nonneg|lra]. } lra.
  - rewrite (Qmake_Qdiv (Zpos n) d).
    assert (Hx : (0 <= inject_Z (Zpos n) / inject_Z (Zpos d))%Q).
    { apply Qle_shift_div_l; [apply inject_pos; lia|]. rewrite Qmult_0_l.
      apply (Qlt_le_weak 0), inject_pos; lia. }
    rewrite (Qabs_pos _ Hx). apply round_pos_err; lia.
  - rewrite (Qmake_Qdiv (Zneg n) d).
    change (Zneg n) with (- Zpos n). rewrite inject_Z_opp.
    assert (Hx : (0 <= inject_Z (Zpos n) / inject_Z (Zpos d))%Q).
    { apply Qle_shift_div_l; [apply inject_pos; lia|]. rewrite Qmult_0_l.
      apply (Qlt_le_weak 0), inject_pos; lia. }
    assert (E1 : (- round_pos (Zpos n) (Zpos d) - - inject_Z (Zpos n) / inject_Z (Zpos d)
                  == - (round_pos (Zpos n) (Zpos d) - inject_Z (Zpos n) / inject_Z (Zpos d)))%Q).
    { field. apply inject_nz; lia. }
    assert (E2 : (- inject_Z (Zpos n) / inject_Z (Zpos d)
                  == - (inject_Z (Zpos n) / inject_Z (Zpos d)))%Q).
    { field. apply inject_nz; lia. }
    rewrite E1, E2, !Qabs_opp, (Qabs_pos _ Hx). apply round_pos_err; lia.
Qed.

Lemma round64_nonneg x : (0 <= x)%Q -> (0 <= round64 x)%Q.
Proof.
  destruct x as [[|n|n] d]; unfold round64; simpl Qnum; simpl Qden; intros Hx.
  - apply Qle_refl.
  - unfold round_pos. cbv zeta.
    set (e := Z.max _ _).
    destruct (Z.leb_spec 0 e) as [He|He];
      (apply Qmult_le_0_compat; [|apply Qlt_le_weak, pow2_pos]);
      change 0%Q with (inject_Z 0); rewrite <- Zle_Qle.
    + assert (0 < 2 ^ e) by (apply Z.pow_pos_nonneg; lia).
      apply rne_div_nonneg; nia.
    + assert (0 < 2 ^ (- e)) by (apply Z.pow_pos_nonneg; lia).
      apply rne_div_nonneg; nia.
  - exfalso. unfold Qle in Hx. simpl in Hx. lia.
Qed.

End FloatFacts.

Module PenaltyFacts.
Import FloatFacts.

Lemma clamp_close p q : (0 <= q <= 1)%Q ->
  (Qabs (Qclamp01 p - q) <= Qabs (p - q))%Q.
Proof.
  intros Hq. unfold Qclamp01.
  destruct (Q.min_spec 1 p) as [[H1 ->]|[H1 ->]];
  destruct (Q.max_spec 0 p) as [[H2 ->]|[H2 ->]] || destruct (Q.max_spec 0 1) as [[H2 ->]|[H2 ->]];
  rewrite ?(Qabs_Qle_condition _ (Qabs (p - q))); try lra;
  apply Qabs_case; intros; split; lra.
Qed.

Lemma Qfloor_eq w f : (inject_Z f <= w)%Q -> (w < inject_Z f + 1)%Q -> Qfloor w = f.
Proof.
  intros H1 H2.
  pose proof (Qfloor_resp_le _ _ H1) as L. rewrite Qfloor_Z in L.
  pose proof (Qfloor_le w) as U.
  assert (H : (inject_Z (Qfloor w) < inject_Z (f + 1))%Q).
  { rewrite inject_Z_plus. change (inject_Z 1) with 1%Q. lra. }
  rewrite <- Zlt_Qlt in H. lia.
Qed.

End PenaltyFacts.

(** C2 (amended): the progress penalty is Python's [int()] of
    [(1.0 - pct_done) * 30] computed in binary64, pct_done clamped to
    [0, 1]: truncation, not rounding, of a float that may lie just below
    the exact value.  For [0 <= done_points <= total_points] and
    [0 < total_points <= 2^40], [pct_done = done / total] raises nothing
    and the penalty is [30 * (total - done) / total] rounded down when
    that quotient is not an integer; when it is an integer the penalty is
    that integer or one less (4 of 5 points done gives 5, not 6).  When
    [total_points <= 0], pct_done is 0 and the penalty is 30. *)
Theorem progress_penalty_truncates (done total : Z)
    (Hd : 0 <= done <= total) (Ht : 0 < total <= 2 ^ 40) :
  (exists p, pct_done_f64 done total = Ok p
     /\ ((30 * (total - done)) mod total <> 0 ->
         progress_penalty_f64 p = 30 * (total - done) / total)
     /\ ((30 * (total - done)) mod total = 0 ->
         progress_penalty_f64 p = 30 * (total - done) / total
         \/ progress_penalty_f64 p = 30 * (total - done) / total - 1))
  /\ (forall d t, t <= 0 -> pct_done_f64 d t = Ok 0%Q)
  /\ progress_penalty_f64 0 = 30.
Proof.
  split; [|split; [intros d t H; unfold pct_done_f64; destruct (Z.ltb_spec 0 t); [lia|reflexivity]
                  |vm_compute; reflexivity]].
  pose proof FloatFacts.eps_facts as (He1 & He2 & He3). unfold eps53 in *.
  pose proof (FloatFacts.inject_pos total ltac:(lia)) as HTq.
  assert (HTnz := FloatFacts.inject_nz total ltac:(lia)).
  assert (HT40 : (inject_Z total <= 1099511627776)%Q).
  { change 1099511627776%Q with (inject_Z (2 ^ 40)). rewrite <- Zle_Qle. lia. }
  set (q := (inject_Z done / inject_Z total)%Q).
  assert (Hq : (0 <= q <= 1)%Q).
  { unfold q. split.
    - apply Qle_shift_div_l; [exact HTq|]. rewrite Qmult_0_l.
      change 0%Q with (inject_Z 0). rewrite <- Zle_Qle. lia.
    - apply Qle_shift_div_r; [exact HTq|]. rewrite Qmult_1_l. rewrite <- Zle_Qle. lia. }
  set (p := round64 q).
  assert (Hp : (Qabs (p - q) <= q * eps53 + tiny1075)%Q).
  { rewrite <- (Qabs_pos q) at 2 by lra. apply FloatFacts.round64_err. }
  unfold eps53 in Hp. apply Qabs_Qle_condition in Hp.
  assert (Hov : float_overflows p = false).
  { unfold float_overflows. destruct (Qle_bool _ _) eqn:E; [|reflexivity].
    apply Qle_bool_iff in E. exfalso.
    assert (B : (4 <= inject_Z (2 ^ 1024))%Q) by (apply Qle_bool_iff; vm_compute; reflexivity).
    revert E. apply Qabs_case; intros; lra. }
  exists p. split.
  { unfold pct_done_f64, int_truediv. replace (0 <? total) with true by (symmetry; apply Z.ltb_lt; lia).
    fold q p. rewrite Hov. reflexivity. }
  set (c := Qclamp01 p).
  assert (Hc : (Qabs (c - q) <= Qabs (p - q))%Q) by (apply PenaltyFacts.clamp_close, Hq).
  assert (Hc01 : (0 <= c <= 1)%Q) by apply ScoreFacts.Qclamp01_bounds.
  set (y := (1 - c)%Q).
  set (s := round64 y).
  assert (Hs : (Qabs (s - y) <= y * eps53 + tiny1075)%Q).
  { rewrite <- (Qabs_pos y) at 2 by (unfold y; lra). apply FloatFacts.round64_err. }
  assert (Hs0 : (0 <= s)%Q) by (apply FloatFacts.round64_nonneg; unfold y; lra).
  set (z := (s * 30)%Q).
  set (w := round64 z).
  assert (Hw : (Qabs (w - z) <= z * eps53 + tiny1075)%Q).
  { rewrite <- (Qabs_pos z) at 2 by (unfold z; lra). apply FloatFacts.round64_err. }
  assert (Hw0 : (0 <= w)%Q) by (apply FloatFacts.round64_nonneg; unfold z; lra).
  unfold eps53 in Hs, Hw.
  apply Qabs_Qle_condition in Hs. apply Qabs_Qle_condition in Hw.
  assert (HW : (30 * (1 - q) - (1 # 70368744177664) < w
                 < 30 * (1 - q) + (1 # 70368744177664))%Q).
  { revert Hc. apply Qabs_case; intros Hc0 Hc1; revert Hc1; apply Qabs_case; intros Hc2 Hc;
      unfold z, y in *; lra. }
  assert (Hpen : progress_penalty_f64 p = Qfloor w)
    by (unfold progress_penalty_f64; fold c y s z w; apply ScoreFacts.py_int_nonneg, Hw0).
  rewrite Hpen.
  set (a := 30 * (total - done)).
  pose proof (Z.div_mod a total ltac:(lia)) as Hdm.
  pose proof (Z.mod_pos_bound a total ltac:(lia)) as Hr.
  set (f := a / total) in *. set (r := a mod total) in *.
  assert (Ea : (inject_Z a == inject_Z total * inject_Z f + inject_Z r)%Q)
    by (rewrite <- inject_Z_mult, <- inject_Z_plus, <- Hdm; reflexivity).
  assert (Hv : (30 * (1 - q) == inject_Z f + inject_Z r / inject_Z total)%Q).
  { apply (Qmult_inj_r _ _ (inject_Z total)); [exact HTnz|].
    revert Ea. unfold a, q. unfold Z.sub. rewrite inject_Z_mult, inject_Z_plus, inject_Z_opp.
    change (inject_Z 30) with 30%Q. intros Ea.
    field_simplify; [|exact HTnz|exact HTnz]. field_simplify in Ea. lra. }
  rewrite Hv in HW.
  split; intros Hmod.
  - assert (Hu1 : ((1 # 1099511627776) <= inject_Z r / inject_Z total)%Q).
    { apply Qle_shift_div_l; [exact HTq|].
      assert (inject_Z 1 <= inject_Z r)%Q by (rewrite <- Zle_Qle; lia).
      change (inject_Z 1) with 1%Q in *. lra. }
    assert (Hu2 : (inject_Z r / inject_Z total <= 1 - (1 # 1099511627776))%Q).
    { apply Qle_shift_div_r; [exact HTq|].
      assert (inject_Z (r + 1) <= inject_Z total)%Q by (rewrite <- Zle_Qle; lia).
      rewrite inject_Z_plus in H. change (inject_Z 1) with 1%Q in H.
      lra. }
    apply PenaltyFacts.Qfloor_eq; lra.
  - fold r in Hmod. rewrite Hmod in HW.
    change (inject_Z 0 / inject_Z total)%Q with (0 / inject_Z total)%Q in HW.
    assert (Z0 : (0 / inject_Z total == 0)%Q) by (unfold Qdiv; apply Qmult_0_l).
    rewrite Z0 in HW.
    destruct (Qlt_le_dec w (inject_Z f)) as [Hlt|Hge].
    + right. assert (E1 : (inject_Z (f - 1) == inject_Z f - 1)%Q)
        by (unfold Z.sub; rewrite inject_Z_plus, inject_Z_opp; reflexivity).
      apply PenaltyFacts.Qfloor_eq; rewrite E1; lra.
    + left. apply PenaltyFacts.Qfloor_eq; lra.
Qed.

Lemma progress_penalty_truncates_witness :
  ((0 <= 4 <= 5 /\ 0 < 5 <= 2 ^ 40)
   /\ progress_penalty_f64 (round64 (inject_Z 4 / inject_Z 5)) = 5)
  /\ ((exists p, pct_done_f64 4 5 = Ok p
        /\ ((30 * (5 - 4)) mod 5 <> 0 ->
            progress_penalty_f64 p = 30 * (5 - 4) / 5)
        /\ ((30 * (5 - 4)) mod 5 = 0 ->
            progress_penalty_f64 p = 30 * (5 - 4) / 5
            \/ progress_penalty_f64 p = 30 * (5 - 4) / 5 - 1))
       /\ (forall d t, t <= 0 -> pct_done_f64 d t = Ok 0%Q)
       /\ progress_penalty_f64 0 = 30).
Proof.
  assert (H : 0 <= 4 <= 5 /\ 0 < 5 <= 2 ^ 40) by (split; [lia|split; [lia|apply Z.leb_le; reflexivity]]).
  split; [split; [exact H|vm_compute; reflexivity]|].
  destruct H as [Hd Ht].
  exact (progress_penalty_truncates 4 5 Hd Ht).
Defined.

(** C2 counterexample: with one point done out of seven, [(1 - 1/7) * 30]
    is 25.71...; the code subtracts 25, rounding would subtract 26.  With
    four out of five the exact value is 6 but the float product is
    5.999..., and the code subtracts 5. *)
Lemma progress_penalty_not_rounded :
  pct_done_f64 1 7 = Ok (round64 (inject_Z 1 / inject_Z 7))
  /\ progress_penalty_f64 (round64 (inject_Z 1 / inject_Z 7)) = 25
  /\ round_half_even ((1 - inject_Z 1 / inject_Z 7) * 30) = 26
  /\ pct_done_f64 4 5 = Ok (round64 (inject_Z 4 / inject_Z 5))
  /\ progress_penalty_f64 (round64 (inject_Z 4 / inject_Z 5)) = 5
  /\ round_half_even ((1 - inject_Z 4 / inject_Z 5) * 30) = 6.
Proof. repeat split; vm_compute; reflexivity. Qed.

(** C5 (amended): after the fold, an initiative's [dependency_count] is
    the sum of [blocks] over the rows resolving to it, and its
    [blocked_days] is the maximum of 0 and their [blocked_days] (the
    accumulator starts at 0): it bounds every row's value and is 0 or one
    of them, so it is their maximum whenever one of them is non-negative.
    Rows have non-empty keys, as [load_csv] keeps only those. *)
Theorem aggregate_rollup_dependencies_blocked (rows : list Row)
    (Hkeys : Forall (fun r => key r <> "") rows) :
  forall k a, In (k, a) (aggregate rows) ->
  Agg.dependency_count a = sumZ (map blocks (rows_resolving_to rows k))
  /\ Agg.blocked_days a = max_from_zero (map blocked_days (rows_resolving_to rows k))
  /\ Forall (fun r => blocked_days r <= Agg.blocked_days a) (rows_resolving_to rows k)
  /\ (Agg.blocked_days a = 0
      \/ exists r, In r (rows_resolving_to rows k) /\ blocked_days r = Agg.blocked_days a).
Proof.
  intros k a Hin.
  destruct (InitFacts.aggregate_Inv rows Hkeys) as (_ & Hall & _).
  destruct (Hall k a Hin) as (_ & _ & Hdep & Hbd & _).
  change (AggFacts.res (build_parent_map rows) (index_rows rows) k rows)
    with (rows_resolving_to rows k) in Hdep, Hbd.
  split; [exact Hdep|split; [exact Hbd|]].
  destruct (max_from_zero_spec (map blocked_days (rows_resolving_to rows k)))
    as [Hf Hor].
  rewrite <- Hbd in Hf, Hor. split.
  - rewrite Forall_forall in Hf |- *. intros r Hr.
    apply Hf. apply in_map. exact Hr.
  - destruct Hor as [H0|Hm]; [left; exact H0|right].
    apply in_map_iff in Hm. destruct Hm as [r [Hr Hin']]. eauto.
Qed.

Lemma aggregate_rollup_dependencies_blocked_witness :
  Forall (fun r => key r <> "") fixture_rows
  /\ option_map (fun a => (Agg.dependency_count a, Agg.blocked_days a))
       (dict_get (aggregate fixture_rows) "INIT-1") = Some (4, 2)
  /\ (forall k a, In (k, a) (aggregate fixture_rows) ->
      Agg.dependency_count a = sumZ (map blocks (rows_resolving_to fixture_rows k))).
Proof.
  assert (H : Forall (fun r => key r <> "") fixture_rows)
    by (repeat constructor; simpl; discriminate).
  split; [exact H|split; [vm_compute; reflexivity|]].
  intros k a Hin.
  exact (proj1 (aggregate_rollup_dependencies_blocked fixture_rows H k a Hin)).
Defined.

(** C5 counterexample: an Initiative row whose Blocked Days cell is "-2"
    is the only row resolving to it, yet its aggregate keeps
    [blocked_days = 0], not the maximum -2. *)
Lemma aggregate_blocked_days_not_max :
  option_map Agg.blocked_days (dict_get (aggregate negative_blocked_rows) "INIT-1")
  = Some 0
  /\ map blocked_days (rows_resolving_to negative_blocked_rows "INIT-1") = [-2].
Proof. split; vm_compute; reflexivity. Qed.

(** C6: every initiative record of a snapshot has [dcs_current] in
    [0, 100] and a band that is Green exactly when [dcs_current >= 80],
    Yellow exactly when it is in [60, 79] and Red exactly when it is below
    60. *)
Theorem transform_dcs_band (parse_date : string -> option Z) (rows : list Row)
    (w : string) (snap : Snapshot)
    (Ht : transform parse_date rows w = Ok snap) :
  forall i, In i (initiatives snap) ->
  0 <= Snap.dcs_current i <= 100
  /\ (Snap.band i = "Green" <-> 80 <= Snap.dcs_current i)
  /\ (Snap.band i = "Yellow" <-> 60 <= Snap.dcs_current i <= 79)
  /\ (Snap.band i = "Red" <-> Snap.dcs_current i < 60).
Proof.
  intros i Hi.
  destruct (TransformFacts.transform_records _ _ _ _ _ Ht Hi)
    as (we & kv & _ & _ & ->).
  destruct (FinalizeFacts.finalize_dcs_band we (snd kv)) as [Hb Hband].
  rewrite Hband. split; [exact Hb|].
  split; [apply ScoreFacts.band_green|split; [apply ScoreFacts.band_yellow|]].
  apply ScoreFacts.band_red.
Qed.

Lemma transform_dcs_band_witness :
  transform fixture_parse_date fixture_rows "2026-02-06" = Ok fixture_snapshot
  /\ (forall i, In i (initiatives fixture_snapshot) ->
      0 <= Snap.dcs_current i <= 100
      /\ (Snap.band i = "Green" <-> 80 <= Snap.dcs_current i)
      /\ (Snap.band i = "Yellow" <-> 60 <= Snap.dcs_current i <= 79)
      /\ (Snap.band i = "Red" <-> Snap.dcs_current i < 60)).
Proof.
  assert (H : transform fixture_parse_date fixture_rows "2026-02-06"
              = Ok fixture_snapshot) by (vm_compute; reflexivity).
  split; [exact H|].
  exact (transform_dcs_band fixture_parse_date fixture_rows "2026-02-06"
           fixture_snapshot H).
Defined.

(** C9: for any integer field values, each of the six driver scores is an
    integer in [0, 10], the Dependencies score included after its +2
    critical-dependency bump. *)
Theorem compute_driver_scores_bounds (item : Snap.t) :
  let d := compute_driver_scores item in
  (0 <= confidence_risk d <= 10) /\ (0 <= blocked d <= 10)
  /\ (0 <= scope_volatility d <= 10) /\ (0 <= dependencies d <= 10)
  /\ (0 <= due_proximity d <= 10) /\ (0 <= stagnation d <= 10).
Proof.
  unfold compute_driver_scores. cbv zeta. simpl.
  pose proof (ScoreFacts.score_0_10_bounds (Snap.dependency_count item) 6).
  repeat split; try apply ScoreFacts.score_0_10_bounds;
    try (destruct (Snap.critical_dependency item); lia);
    repeat (match goal with |- context [if ?c then _ else _] => destruct c end);
    lia.
Qed.

(** C10: when every row's scope changes are non-negative, every record of
    the snapshot has [dcs_prior >= dcs_current], so its delta is at most 0
    and the brief's [delta > 0] momentum test is false for it. *)
Theorem transform_delta_nonpositive (parse_date : string -> option Z)
    (rows : list Row) (w : string) (snap : Snapshot)
    (Hsc : Forall (fun r => 0 <= scope_changes_14d r) rows)
    (Ht : transform parse_date rows w = Ok snap) :
  forall i, In i (initiatives snap) ->
  Snap.dcs_current i <= Snap.dcs_prior i /\ delta i <= 0 /\ (0 <? delta i) = false.
Proof.
  intros i Hi.
  destruct (TransformFacts.transform_records _ _ _ _ _ Ht Hi)
    as (we & kv & _ & Hkv & ->).
  assert (Hs : Forall (fun kv => 0 <= Agg.scope_changes_14d (snd kv)) (aggregate rows)).
  { apply InitFacts.aggregate_preserves with (Q := fun r => 0 <= scope_changes_14d r).
    - intros. simpl. lia.
    - intros k a r Hr Ha. simpl in *. lia.
    - exact Hsc. }
  rewrite Forall_forall in Hs.
  pose proof (FinalizeFacts.finalize_prior_ge we (snd kv) (Hs _ Hkv)) as H.
  unfold delta. split; [exact H|split; [lia|apply Z.ltb_ge; lia]].
Qed.

Lemma transform_delta_nonpositive_witness :
  Forall (fun r => 0 <= scope_changes_14d r) fixture_rows
  /\ transform fixture_parse_date fixture_rows "2026-02-06" = Ok fixture_snapshot
  /\ (forall i, In i (initiatives fixture_snapshot) -> delta i <= 0).
Proof.
  assert (Hs : Forall (fun r => 0 <= scope_changes_14d r) fixture_rows)
    by (repeat constructor; simpl; lia).
  assert (H : transform fixture_parse_date fixture_rows "2026-02-06"
              = Ok fixture_snapshot) by (vm_compute; reflexivity).
  split; [exact Hs|split; [exact H|]].
  intros i Hi.
  exact (proj1 (proj2 (transform_delta_nonpositive _ _ _ _ Hs H i Hi))).
Defined.

(* ------------------------------------------------------------------ *)
(** ** Hierarchy resolution *)

Module ResolverFacts.
Import DictFacts.

Section Walk.
Variable parent_map : Dict string.
Variable row_index : Dict Row.

Lemma walk_iterations fuel : forall k vis,
  (snd (walk fuel k vis parent_map row_index) <= fuel)%nat.
Proof.
  induction fuel as [|fuel IH]; intros k vis; simpl; [lia|].
  destruct (existsb (String.eqb k) vis); simpl; [lia|].
  destruct (match dict_get row_index k with
            | Some row => if is_initiative_type (issue_type row) then Some (key row) else None
            | None => None end); simpl; [lia|].
  destruct (dict_get parent_map k) as [p|]; simpl; [|lia].
  destruct (String.eqb p ""); simpl; [lia|].
  specialize (IH p (k :: vis)).
  destruct (walk fuel p (k :: vis) parent_map row_index); simpl in *; lia.
Qed.

Lemma walk_sound fuel : forall k vis i,
  fst (walk fuel k vis parent_map row_index) = Some i ->
  exists n c r, (n < fuel)%nat /\ hop parent_map k n = Some c
    /\ dict_get row_index c = Some r
    /\ is_initiative_type (issue_type r) = true /\ key r = i.
Proof.
  induction fuel as [|fuel IH]; intros k vis i; simpl; [discriminate|].
  destruct (existsb (String.eqb k) vis); [discriminate|].
  destruct (dict_get row_index k) as [row|] eqn:Eg.
  - destruct (is_initiative_type (issue_type row)) eqn:Ei.
    + intros [= <-]. exists O, k, row. simpl. repeat split; auto. lia.
    + destruct (dict_get parent_map k) as [p|] eqn:Ep; [|discriminate].
      destruct (String.eqb p "") eqn:Ee; [discriminate|].
      destruct (walk fuel p (k :: vis) parent_map row_index) as [res n] eqn:Ew.
      simpl. intros Hres.
      destruct (IH p (k :: vis) i) as (n' & c & r & Hn & Hh & Hg & Hi & Hk);
        [rewrite Ew; exact Hres|].
      exists (S n'), c, r. simpl. rewrite Ep, Ee. repeat split; auto. lia.
  - destruct (dict_get parent_map k) as [p|] eqn:Ep; [|discriminate].
    destruct (String.eqb p "") eqn:Ee; [discriminate|].
    destruct (walk fuel p (k :: vis) parent_map row_index) as [res n] eqn:Ew.
    simpl. intros Hres.
    destruct (IH p (k :: vis) i) as (n' & c & r & Hn & Hh & Hg & Hi & Hk);
      [rewrite Ew; exact Hres|].
    exists (S n'), c, r. simpl. rewrite Ep, Ee. repeat split; auto. lia.
Qed.

Lemma walk_none fuel : forall k vis,
  (forall n c r, (n < fuel)%nat -> hop parent_map k n = Some c ->
     dict_get row_index c = Some r -> is_initiative_type (issue_type r) = false) ->
  fst (walk fuel k vis parent_map row_index) = None.
Proof.
  induction fuel as [|fuel IH]; intros k vis H; simpl; [reflexivity|].
  destruct (existsb (String.eqb k) vis); [reflexivity|].
  assert (Hfound : match dict_get row_index k with
                   | Some row => if is_initiative_type (issue_type row)
                                 then Some (key row) else None
                   | None => None end = None).
  { destruct (dict_get row_index k) as [row|] eqn:Eg; [|reflexivity].
    rewrite (H O k row); [reflexivity|lia|reflexivity|exact Eg]. }
  rewrite Hfound.
  destruct (dict_get parent_map k) as [p|] eqn:Ep; [|reflexivity].
  destruct (String.eqb p "") eqn:Ee; [reflexivity|].
  specialize (IH p (k :: vis)).
  destruct (walk fuel p (k :: vis) parent_map row_index) as [res n]; simpl in *.
  apply IH. intros n' c r Hn Hh Hg. apply (H (S n') c r); [lia| |exact Hg].
  simpl. rewrite Ep, Ee. exact Hh.
Qed.

End Walk.

Lemma index_rows_get rows k r :
  dict_get (index_rows rows) k = Some r -> key r = k /\ In r rows.
Proof.
  unfold index_rows.
  assert (H : forall l acc,
    (forall k r, dict_get acc k = Some r -> key r = k /\ In r rows) ->
    (forall r, In r l -> In r rows) ->
    forall k r, dict_get (fold_left (fun m r => dict_set m (key r) r) l acc) k = Some r ->
    key r = k /\ In r rows).
  { induction l as [|r0 l IH]; simpl; intros acc Hacc Hsub; [exact Hacc|].
    apply IH; [|intros; apply Hsub; auto].
    intros k' r' Hg. rewrite get_set in Hg.
    destruct (String.eqb_spec k' (key r0)) as [->|]; [|apply Hacc; exact Hg].
    injection Hg as <-. split; [reflexivity|apply Hsub; auto]. }
  apply H; [intros ? ? Hg; discriminate Hg|auto].
Qed.

Lemma index_rows_unique rows r :
  NoDup (map key rows) -> In r rows -> dict_get (index_rows rows) (key r) = Some r.
Proof.
  unfold index_rows.
  assert (Hkeep : forall l acc k, ~ In k (map key l) ->
    dict_get (fold_left (fun m r => dict_set m (key r) r) l acc) k = dict_get acc k).
  { induction l as [|r0 l IH]; simpl; intros acc k Hk; [reflexivity|].
    rewrite IH by tauto. rewrite get_set.
    destruct (String.eqb_spec k (key r0)); [exfalso; apply Hk; auto|reflexivity]. }
  generalize (@nil (string * Row)).
  induction rows as [|r0 rows IH]; simpl; intros acc Hnd Hin; [destruct Hin|].
  inversion Hnd as [|? ? Hnin Hnd']; subst.
  destruct Hin as [->|Hin]; [|apply IH; assumption].
  rewrite Hkeep by exact Hnin. rewrite get_set, String.eqb_refl. reflexivity.
Qed.

End ResolverFacts.

(** C3 (code bug): a row with status Blocked resolves to INIT-1, yet
    INIT-1's score does not include the 8-point blocked-item penalty,
    because [has_blocked_items] is read off the status notes and a Blocked
    row with an empty summary adds no note.  The score is 70 (only the
    30-point progress penalty); with the blocked-item penalty it would be
    62. *)
Theorem blocked_blank_summary_not_penalized :
  (exists r, In r (rows_resolving_to blocked_blank_summary_rows "INIT-1")
             /\ status r = "Blocked")
  /\ (forall we, map (fun kv => (Snap.id (finalize we (snd kv)),
                                 Snap.dcs_current (finalize we (snd kv))))
                   (aggregate blocked_blank_summary_rows) = [("INIT-1", 70)])
  /\ dcs_from_signals (pct_done_of 0 0) 0 0 0 false None true = 62.
Proof.
  split; [|split].
  - exists (mkRow "STORY-1" "Story" "" "Blocked" "INIT-1" 0 "" "" None 0 0 0).
    split; [vm_compute; auto|reflexivity].
  - intros we. vm_compute. reflexivity.
  - vm_compute. reflexivity.
Qed.

(** C4: resolving any key against any parent map (cycles included) runs
    at most 20 loop iterations; a result is the key of an Initiative row
    reached within 19 parent hops; when no key reached within the bound is
    an Initiative row (a cycle of non-initiatives, a missing parent, a
    chain too deep) the result is [None]; and, keys being unique, an
    Initiative row resolves to itself. *)
Theorem find_initiative_key_bounded (issue_key : string)
    (parent_map : Dict string) (rows : list Row) :
  (find_initiative_iterations issue_key parent_map (index_rows rows) <= 20)%nat
  /\ (forall i, find_initiative_key issue_key parent_map (index_rows rows) = Some i ->
      exists n r, (n < 20)%nat /\ hop parent_map issue_key n = Some i
        /\ In r rows /\ key r = i /\ is_initiative_type (issue_type r) = true)
  /\ ((forall n c r, (n < 20)%nat -> hop parent_map issue_key n = Some c ->
         dict_get (index_rows rows) c = Some r ->
         is_initiative_type (issue_type r) = false) ->
      find_initiative_key issue_key parent_map (index_rows rows) = None)
  /\ (forall r, NoDup (map key rows) -> In r rows ->
      is_initiative_type (issue_type r) = true ->
      find_initiative_key (key r) parent_map (index_rows rows) = Some (key r)).
Proof.
  split; [apply ResolverFacts.walk_iterations|split; [|split]].
  - intros i Hi.
    destruct (ResolverFacts.walk_sound _ _ _ _ _ _ Hi)
      as (n & c & r & Hn & Hh & Hg & Hinit & Hk).
    destruct (ResolverFacts.index_rows_get _ _ _ Hg) as [Hkc Hin].
    exists n, r. subst. auto.
  - intros H. apply ResolverFacts.walk_none. exact H.
  - intros r Hnd Hin Hinit.
    unfold find_initiative_key. simpl.
    rewrite (ResolverFacts.index_rows_unique rows r Hnd Hin), Hinit.
    reflexivity.
Qed.

Lemma find_initiative_key_bounded_witness :
  NoDup (map key fixture_rows)
  /\ find_initiative_key "INIT-1" (build_parent_map fixture_rows)
       (index_rows fixture_rows) = Some "INIT-1"
  /\ find_initiative_key "A" cycle_parent_map (index_rows cycle_rows) = None.
Proof.
  assert (Hnd : NoDup (map key fixture_rows)).
  { simpl. repeat constructor; simpl; intuition discriminate. }
  split; [exact Hnd|split].
  - apply (proj2 (proj2 (proj2 (find_initiative_key_bounded "INIT-1"
             (build_parent_map fixture_rows) fixture_rows)))
             (init_row "INIT-1" (Some 10) 0) Hnd); [simpl; auto|reflexivity].
  - apply (proj1 (proj2 (proj2 (find_initiative_key_bounded "A"
             cycle_parent_map cycle_rows)))).
    intros n c r Hn Hh Hg.
    do 20 (destruct n as [|n];
           [vm_compute in Hh; injection Hh as <-; vm_compute in Hg;
            injection Hg as <-; reflexivity|]).
    lia.
Defined.

(** C7: the initiatives array of every snapshot is sorted ascending by
    [(band, dcs_current)], bands compared lexicographically, under which
    "Green" < "Red" < "Yellow". *)
Theorem transform_sorted (parse_date : string -> option Z) (rows : list Row)
    (w : string) (snap : Snapshot)
    (Ht : transform parse_date rows w = Ok snap) :
  Sorted band_dcs_le (initiatives snap)
  /\ String.compare "Green" "Red" = Lt /\ String.compare "Red" "Yellow" = Lt.
Proof.
  split; [|split; reflexivity].
  unfold transform in Ht. destruct (parse_date w); [|discriminate].
  injection Ht as <-. simpl.
  generalize (SortFacts.sort_sorted
                (map (fun kv => finalize z (snd kv)) (aggregate rows))).
  generalize (sort_snap (map (fun kv => finalize z (snd kv)) (aggregate rows))).
  intros l Hs.
  assert (Himp : forall x y, SortFacts.le_rel x y -> band_dcs_le x y).
  { intros x y. unfold SortFacts.le_rel, sort_key_le, sort_key_lt, band_dcs_le.
    rewrite (String.compare_antisym (Snap.band x)).
    destruct (String.compare (Snap.band y) (Snap.band x)) eqn:E; simpl;
      try discriminate; [|left; reflexivity].
    intros H. right. apply String.compare_eq_iff in E. split; [auto|].
    apply negb_true_iff, Z.ltb_ge in H. exact H. }
  induction Hs as [|x l Hs IH Hhd]; constructor; [exact IH|].
  destruct Hhd; constructor. apply Himp. assumption.
Qed.

Lemma transform_sorted_witness :
  transform fixture_parse_date fixture_rows "2026-02-06" = Ok fixture_snapshot
  /\ Sorted band_dcs_le (initiatives fixture_snapshot).
Proof.
  assert (H : transform fixture_parse_date fixture_rows "2026-02-06"
              = Ok fixture_snapshot) by (vm_compute; reflexivity).
  split; [exact H|].
  exact (proj1 (transform_sorted fixture_parse_date fixture_rows "2026-02-06"
                  fixture_snapshot H)).
Defined.

Lemma existsb_eqb_in h l : existsb (String.eqb h) l = true <-> In h l.
Proof.
  rewrite existsb_exists. split.
  - intros [x [Hx He]]. apply String.eqb_eq in He. subst. exact Hx.
  - intros Hin. exists h. split; [exact Hin|apply String.eqb_refl].
Qed.

Module LoadFacts.

Lemma missing_nil_iff fns :
  filter (fun h => negb (existsb (String.eqb h) fns)) REQUIRED_HEADERS = []
  <-> (forall h, In h REQUIRED_HEADERS -> In h fns).
Proof.
  split.
  - intros E h Hh. apply existsb_eqb_in.
    destruct (existsb (String.eqb h) fns) eqn:Eh; [reflexivity|].
    assert (Hf : In h (filter (fun h => negb (existsb (String.eqb h) fns))
                         REQUIRED_HEADERS)) by (apply filter_In; rewrite Eh; auto).
    rewrite E in Hf. destruct Hf.
  - generalize REQUIRED_HEADERS. intros l Hall. induction l as [|h l IH]; [reflexivity|].
    simpl. assert (Hh : existsb (String.eqb h) fns = true)
      by (apply existsb_eqb_in, Hall; left; reflexivity).
    rewrite Hh. simpl. apply IH. intros h' Hh'. apply Hall. right. exact Hh'.
Qed.

Lemma load_csv_ok fieldnames records rows :
  load_csv fieldnames records = Ok rows
  <-> header_row_complete fieldnames /\ read_rows records = Ok rows.
Proof.
  unfold load_csv, header_row_complete.
  destruct fieldnames as [[fns|]|m].
  - destruct (filter _ REQUIRED_HEADERS) as [|h0 hs] eqn:E.
    + split.
      * intros H. split; [exists fns; split; [reflexivity|apply missing_nil_iff, E]|exact H].
      * intros [_ H]. exact H.
    + split; [discriminate|].
      intros [[fns' [Hf Hall]] _]. injection Hf as <-.
      apply missing_nil_iff in Hall. congruence.
  - split; [discriminate|]. intros [[fns [Hf _]] _]. discriminate.
  - split; [discriminate|]. intros [[fns [Hf _]] _]. discriminate.
Qed.

Lemma load_csv_err fieldnames records m :
  load_csv fieldnames records = Err m ->
  ~ header_row_complete fieldnames \/ exists m', read_rows records = Err m'.
Proof.
  intros EL. destruct (read_rows records) as [rows|m'] eqn:Er; [|right; exists m'; reflexivity].
  left. intros Hc. assert (H : load_csv fieldnames records = Ok rows)
    by (apply load_csv_ok; split; assumption).
  congruence.
Qed.

Lemma header_missing_incomplete fieldnames fns h :
  fieldnames = Ok fns -> In h REQUIRED_HEADERS -> header_missing fns h ->
  ~ header_row_complete fieldnames.
Proof.
  intros -> Hh Hm [fns' [Hf Hall]]. injection Hf as ->.
  apply Hm, Hall, Hh.
Qed.

End LoadFacts.

(** C8 (amended): a run of the transform stage fails when the header row
    was read and lacks a required header (every one, for a file with no
    header row) or when week_ending does not parse as a date.  It also
    fails when the reader raises on the header row or on a data record
    (a byte that is not UTF-8, a field over csv's size limit) and when an
    initiative's [done_points / total_points] is too large for a double;
    these are all its failures.  On any of them the output file is left
    as it was; on success it holds the snapshot [transform] built from
    the rows read.  A missing header is reported by name. *)
Theorem main_fails_iff (parse_date : string -> option Z)
    (fieldnames : result (option (list string))) (records : list (result Row))
    (w : string) (output : option Snapshot) :
  (((exists fns h, fieldnames = Ok fns /\ In h REQUIRED_HEADERS /\ header_missing fns h)
    \/ parse_date w = None) ->
   exists m, fst (main parse_date fieldnames records w output) = Err m)
  /\ ((exists m, fst (main parse_date fieldnames records w output) = Err m)
      <-> ~ header_row_complete fieldnames
          \/ (exists m, read_rows records = Err m)
          \/ parse_date w = None
          \/ (exists rows, read_rows records = Ok rows
                           /\ some_pct_done_raises rows = true))
  /\ (forall m, fst (main parse_date fieldnames records w output) = Err m ->
      snd (main parse_date fieldnames records w output) = output)
  /\ (fst (main parse_date fieldnames records w output) = Ok tt ->
      exists rows snap, read_rows records = Ok rows
                        /\ transform parse_date rows w = Ok snap
                        /\ snd (main parse_date fieldnames records w output) = Some snap)
  /\ (forall fns, fieldnames = Ok (Some fns) ->
      filter (fun h => negb (existsb (String.eqb h) fns)) REQUIRED_HEADERS <> [] ->
      fst (main parse_date fieldnames records w output)
      = Err ("Missing required headers: "
             ++ repr_str_list (filter (fun h => negb (existsb (String.eqb h) fns))
                                 REQUIRED_HEADERS))).
Proof.
  assert (Hiff : ((exists m, fst (main parse_date fieldnames records w output) = Err m)
      <-> ~ header_row_complete fieldnames
          \/ (exists m, read_rows records = Err m)
          \/ parse_date w = None
          \/ (exists rows, read_rows records = Ok rows
                           /\ some_pct_done_raises rows = true))
    /\ (forall m, fst (main parse_date fieldnames records w output) = Err m ->
        snd (main parse_date fieldnames records w output) = output)
    /\ (fst (main parse_date fieldnames records w output) = Ok tt ->
        exists rows snap, read_rows records = Ok rows
                          /\ transform parse_date rows w = Ok snap
                          /\ snd (main parse_date fieldnames records w output) = Some snap)).
  { unfold main.
    destruct (load_csv fieldnames records) as [rows|m] eqn:EL.
    - pose proof EL as EL'. apply LoadFacts.load_csv_ok in EL' as [Hc Hr].
      destruct (transform parse_date rows w) as [snap|m] eqn:ET.
      + assert (Ep : parse_date w <> None).
        { unfold transform in ET. destruct (parse_date w); discriminate. }
        destruct (some_pct_done_raises rows) eqn:Eo; simpl.
        * split; [|split; [auto|discriminate]].
          split; [intros _; right; right; right; exists rows; split; assumption|eauto].
        * split; [|split; [discriminate|intros _; exists rows, snap; auto]].
          split; [intros [m Hm]; discriminate|].
          intros [Hn|[[m Hm]|[Hn|[rows' [Hr' Ho]]]]].
          -- contradiction.
          -- congruence.
          -- contradiction.
          -- rewrite Hr in Hr'. injection Hr' as <-. congruence.
      + assert (Ep : parse_date w = None).
        { unfold transform in ET. destruct (parse_date w); [discriminate|reflexivity]. }
        simpl. split; [|split; [auto|discriminate]].
        split; [intros _; right; right; left; exact Ep|eauto].
    - simpl. split; [|split; [auto|discriminate]].
      split; [|eauto]. intros _.
      destruct (LoadFacts.load_csv_err _ _ _ EL) as [Hn|Hm]; [left; exact Hn|right; left; exact Hm]. }
  destruct Hiff as [Hiff [Hout Hok]].
  split; [|split; [exact Hiff|split; [exact Hout|split; [exact Hok|]]]].
  - intros [[fns [h [Hf [Hh Hm]]]]|Hn]; apply Hiff.
    + left. exact (LoadFacts.header_missing_incomplete _ _ _ Hf Hh Hm).
    + right; right; left. exact Hn.
  - intros fns Hf Hne. unfold main, load_csv. rewrite Hf.
    destruct (filter _ REQUIRED_HEADERS) as [|h0 hs]; [contradiction|reflexivity].
Qed.

Lemma main_fails_iff_witness :
  fst (main fixture_parse_date (Ok (Some ["Issue key"; "Issue Type"; "Summary"]))
         (map Ok fixture_rows) "2026-02-06" None)
  = Err "Missing required headers: ['Status', 'Parent key']"
  /\ snd (main fixture_parse_date (Ok (Some ["Issue key"; "Issue Type"; "Summary"]))
            (map Ok fixture_rows) "2026-02-06" None) = None.
Proof.
  assert (H : fst (main fixture_parse_date (Ok (Some ["Issue key"; "Issue Type"; "Summary"]))
                    (map Ok fixture_rows) "2026-02-06" None)
              = Err "Missing required headers: ['Status', 'Parent key']")
    by (vm_compute; reflexivity).
  split; [exact H|].
  exact (proj1 (proj2 (proj2 (main_fails_iff fixture_parse_date
           (Ok (Some ["Issue key"; "Issue Type"; "Summary"])) (map Ok fixture_rows)
           "2026-02-06" None))) _ H).
Defined.

(** C8 counterexample: the header row holds every required header and
    week_ending parses, yet the run fails, once on a record the reader
    cannot decode, once on an initiative whose points make
    [done_points / total_points] overflow a double (two Done stories of
    1.7976931348623157e308 points against a total of 1). *)
Lemma main_fails_other_errors :
  (forall h, In h REQUIRED_HEADERS -> ~ header_missing (Some REQUIRED_HEADERS) h)
  /\ fixture_parse_date "2026-02-06" <> None
  /\ fst (main fixture_parse_date (Ok (Some REQUIRED_HEADERS))
           (map Ok fixture_rows ++ [Err decode_error]) "2026-02-06" None)
     = Err decode_error
  /\ fst (main fixture_parse_date (Ok (Some REQUIRED_HEADERS))
           (map Ok overflow_rows) "2026-02-06" None)
     = Err "integer division result too large for a float".
Proof.
  split; [intros h Hh Hm; exact (Hm Hh)|].
  split; [vm_compute; discriminate|].
  split; vm_compute; reflexivity.
Qed.


(* ================================================================== *)
(** * Further properties of the pipeline *)

(* ------------------------------------------------------------------ *)
(** ** Status normalization *)

Module StripFacts.

Lemma drop_spaces_idem l : drop_spaces (drop_spaces l) = drop_spaces l.
Proof.
  induction l as [|c l IH]; simpl; [reflexivity|].
  destruct (is_space c) eqn:E; [exact IH|simpl; rewrite E; reflexivity].
Qed.

Lemma drop_spaces_head l :
  drop_spaces l = [] \/ exists c r, drop_spaces l = c :: r /\ is_space c = false.
Proof.
  induction l as [|c l IH]; simpl; [auto|].
  destruct (is_space c) eqn:E; [exact IH|eauto].
Qed.

Lemma drop_spaces_suffix l : exists p, l = (p ++ drop_spaces l)%list.
Proof.
  induction l as [|c l [p Hp]]; simpl; [exists []; reflexivity|].
  destruct (is_space c); [exists (c :: p); simpl; congruence|exists []; reflexivity].
Qed.

Lemma drop_spaces_keep c r : is_space c = false -> drop_spaces (c :: r) = c :: r.
Proof. simpl. intros ->. reflexivity. Qed.

Definition strip_l (l : list ascii) : list ascii :=
  rev (drop_spaces (rev (drop_spaces l))).

(** The stripped text starts with a non-space (or is empty). *)
Lemma strip_l_head l : drop_spaces (strip_l l) = strip_l l.
Proof.
  unfold strip_l.
  set (d := drop_spaces l). set (e := drop_spaces (rev d)).
  destruct (drop_spaces_suffix (rev d)) as [p Hp]. fold e in Hp.
  destruct e as [|c r] eqn:Ee; [reflexivity|].
  assert (Hd : d = (rev (c :: r) ++ rev p)%list).
  { rewrite <- rev_app_distr, <- Hp, rev_involutive. reflexivity. }
  destruct (drop_spaces_head l) as [Hnil|(c0 & t & Hc0 & Hsp)].
  - fold d in Hnil. rewrite Hnil in Hd. simpl in Hd.
    destruct (rev r ++ [c])%list eqn:Er; [destruct (rev r); discriminate|].
    simpl in Hd. discriminate.
  - fold d in Hc0. rewrite Hc0 in Hd.
    destruct (rev (c :: r)) as [|c1 t1] eqn:Er.
    + simpl in Er. destruct (rev r); discriminate.
    + simpl in Hd. injection Hd as <- _. apply drop_spaces_keep. exact Hsp.
Qed.

Lemma strip_l_idem l : strip_l (strip_l l) = strip_l l.
Proof.
  unfold strip_l at 1. rewrite strip_l_head. unfold strip_l.
  rewrite rev_involutive, drop_spaces_idem. reflexivity.
Qed.

Lemma strip_idem s : strip (strip s) = strip s.
Proof.
  unfold strip. rewrite list_ascii_of_string_of_list_ascii.
  fold (strip_l (list_ascii_of_string s)). fold (strip_l (strip_l (list_ascii_of_string s))).
  rewrite strip_l_idem. reflexivity.
Qed.

End StripFacts.

(** X1: normalizing a status twice gives the status normalized once, and
    the normalized status is never empty. *)
Theorem normalize_status_idempotent (s : string) :
  normalize_status (normalize_status s) = normalize_status s
  /\ normalize_status s <> "".
Proof.
  unfold normalize_status at 2 3 4. cbv zeta.
  destruct (existsb (String.eqb (lower (strip s))) ["done"; "closed"; "resolved"]) eqn:E1;
    [split; [reflexivity|discriminate]|].
  destruct (existsb (String.eqb (lower (strip s))) ["blocked"]) eqn:E2;
    [split; [reflexivity|discriminate]|].
  destruct (existsb (String.eqb (lower (strip s)))
              ["in progress"; "in-progress"; "inprogress"; "doing"]) eqn:E3;
    [split; [reflexivity|discriminate]|].
  destruct (existsb (String.eqb (lower (strip s)))
              ["to do"; "todo"; "backlog"; "not started"; "open"]) eqn:E4;
    [split; [reflexivity|discriminate]|].
  destruct (String.eqb_spec (strip s) "") as [E5|E5];
    [split; [reflexivity|discriminate]|].
  split; [|exact E5].
  unfold normalize_status. cbv zeta. rewrite StripFacts.strip_idem, E1, E2, E3, E4.
  apply String.eqb_neq in E5. rewrite E5. reflexivity.
Qed.

(* ------------------------------------------------------------------ *)
(** ** The parent map and the row index *)

Module IndexFacts.
Import DictFacts.

Lemma snoc_split {A} (l pre post : list A) x r :
  (l ++ [x])%list = (pre ++ r :: post)%list ->
  (post = [] /\ r = x /\ l = pre)
  \/ exists post', post = (post' ++ [x])%list /\ l = (pre ++ r :: post')%list.
Proof.
  induction post as [|y post' _] using rev_ind; intros H.
  - apply app_inj_tail in H. destruct H as [-> ->]. left. auto.
  - replace (pre ++ r :: post' ++ [y])%list with ((pre ++ r :: post') ++ [y])%list in H
      by (rewrite <- app_assoc; reflexivity).
    apply app_inj_tail in H. destruct H as [-> ->]. right. eauto.
Qed.

(** A dict filled by [for r in rows: if skip(r): continue; d[r.key] = val(r)]
    maps [k] to the value of the last row with key [k] that is not
    skipped. *)
Lemma fold_set_get {V} (skip : Row -> bool) (val : Row -> V) rows k v :
  dict_get (fold_left (fun m r => if skip r then m else dict_set m (key r) (val r))
              rows []) k = Some v
  <-> exists pre r post, rows = (pre ++ r :: post)%list /\ key r = k
        /\ skip r = false /\ val r = v
        /\ Forall (fun r' => key r' <> k \/ skip r' = true) post.
Proof.
  induction rows as [|x l IH] using rev_ind.
  - simpl. split; [discriminate|]. intros (pre & r & post & H & _).
    destruct pre; discriminate.
  - rewrite fold_left_app. simpl.
    destruct (skip x) eqn:Ex.
    + rewrite IH. split.
      * intros (pre & r & post & -> & Hk & Hs & Hv & Hf).
        exists pre, r, (post ++ [x])%list. rewrite <- app_assoc. simpl.
        repeat split; auto. apply Forall_app. split; [exact Hf|]. constructor; auto.
      * intros (pre & r & post & H & Hk & Hs & Hv & Hf).
        destruct (snoc_split _ _ _ _ _ H) as [(_ & -> & _)|(post' & -> & Hl)];
          [congruence|].
        apply Forall_app in Hf. exists pre, r, post'. tauto.
    + rewrite get_set. destruct (String.eqb_spec k (key x)) as [->|Hne].
      * split.
        -- intros [= <-]. exists l, x, []. repeat split; auto.
        -- intros (pre & r & post & H & Hk & Hs & Hv & Hf).
           destruct (snoc_split _ _ _ _ _ H) as [(_ & -> & _)|(post' & -> & _)];
             [congruence|].
           apply Forall_app in Hf. destruct Hf as [_ Hf]. inversion Hf as [|? ? [Hx|Hx]]; subst;
             congruence.
      * rewrite IH. split.
        -- intros (pre & r & post & -> & Hk & Hs & Hv & Hf).
           exists pre, r, (post ++ [x])%list. rewrite <- app_assoc. simpl.
           repeat split; auto. apply Forall_app. split; [exact Hf|]. constructor; auto.
        -- intros (pre & r & post & H & Hk & Hs & Hv & Hf).
           destruct (snoc_split _ _ _ _ _ H) as [(_ & -> & _)|(post' & -> & Hl)];
             [congruence|].
           apply Forall_app in Hf. exists pre, r, post'. tauto.
Qed.

End IndexFacts.

(** X2: the row index maps a key to the LAST row carrying that key: a
    later row with the same key replaces an earlier one. *)
Theorem index_rows_last (rows : list Row) (k : string) (r : Row) :
  dict_get (index_rows rows) k = Some r
  <-> exists pre post, rows = (pre ++ r :: post)%list /\ key r = k
        /\ Forall (fun r' => key r' <> k) post.
Proof.
  unfold index_rows.
  change (fold_left (fun m r => dict_set m (key r) r) rows [])
    with (fold_left (fun m r => if (fun _ : Row => false) r then m
                                 else dict_set m (key r) ((fun r : Row => r) r)) rows []).
  rewrite IndexFacts.fold_set_get. split.
  - intros (pre & r' & post & H & Hk & _ & <- & Hf). exists pre, post.
    repeat split; auto. eapply Forall_impl; [|exact Hf]. simpl. intros a [Ha|Ha]; congruence.
  - intros (pre & post & H & Hk & Hf). exists pre, r, post. repeat split; auto.
    eapply Forall_impl; [|exact Hf]. simpl. auto.
Qed.

(** X3: the parent map maps a key to the parent key of the last row with
    that key and a non-empty parent key; a later row with the same key and
    an empty parent key does not erase the entry. *)
Theorem build_parent_map_last (rows : list Row) (k p : string) :
  dict_get (build_parent_map rows) k = Some p
  <-> exists pre r post, rows = (pre ++ r :: post)%list /\ key r = k
        /\ parent_key r = p /\ p <> ""
        /\ Forall (fun r' => key r' <> k \/ parent_key r' = "") post.
Proof.
  unfold build_parent_map.
  change (fold_left (fun m r => if String.eqb (parent_key r) "" then m
                                else dict_set m (key r) (parent_key r)) rows [])
    with (fold_left (fun m r => if (fun r => String.eqb (parent_key r) "") r then m
                                else dict_set m (key r) (parent_key r)) rows []).
  rewrite IndexFacts.fold_set_get. split.
  - intros (pre & r & post & H & Hk & Hs & Hv & Hf). exists pre, r, post.
    apply String.eqb_neq in Hs. repeat split; auto; [congruence|].
    eapply Forall_impl; [|exact Hf]. simpl. intros a [Ha|Ha]; [auto|].
    apply String.eqb_eq in Ha. auto.
  - intros (pre & r & post & H & Hk & Hp & Hne & Hf). exists pre, r, post.
    repeat split; auto; [apply String.eqb_neq; congruence|].
    eapply Forall_impl; [|exact Hf]. simpl. intros a [Ha|Ha]; [auto|].
    right. apply String.eqb_eq. exact Ha.
Qed.

(* ------------------------------------------------------------------ *)
(** ** Completeness of the resolver *)

Module WalkFacts.

Section Walk.
Variable parent_map : Dict string.
Variable row_index : Dict Row.

Lemma hop_succ k p m :
  dict_get parent_map k = Some p -> String.eqb p "" = false ->
  hop parent_map k (S m) = hop parent_map p m.
Proof. intros Ep Ee. simpl. rewrite Ep, Ee. reflexivity. Qed.

Lemma walk_complete n : forall fuel k vis c r,
  (n < fuel)%nat -> hop parent_map k n = Some c ->
  dict_get row_index c = Some r -> is_initiative_type (issue_type r) = true ->
  (forall m c' r', (m < n)%nat -> hop parent_map k m = Some c' ->
     dict_get row_index c' = Some r' -> is_initiative_type (issue_type r') = false) ->
  (forall m1 m2 c', (m1 <= n)%nat -> (m2 <= n)%nat -> hop parent_map k m1 = Some c' ->
     hop parent_map k m2 = Some c' -> m1 = m2) ->
  (forall m c', (m <= n)%nat -> hop parent_map k m = Some c' -> ~ In c' vis) ->
  fst (walk fuel k vis parent_map row_index) = Some (key r).
Proof.
  induction n as [|n IH]; intros [|fuel] k vis c r Hn Hh Hg Hi Hb Hd Hv; try lia.
  - simpl in Hh. injection Hh as <-. simpl.
    assert (Hk : existsb (String.eqb k) vis = false).
    { destruct (existsb (String.eqb k) vis) eqn:E; [|reflexivity].
      apply existsb_eqb_in in E. exfalso. exact (Hv O k (le_n _) eq_refl E). }
    rewrite Hk, Hg, Hi. reflexivity.
  - assert (Hk : existsb (String.eqb k) vis = false).
    { destruct (existsb (String.eqb k) vis) eqn:E; [|reflexivity].
      apply existsb_eqb_in in E. exfalso. exact (Hv O k (Nat.le_0_l _) eq_refl E). }
    simpl in Hh.
    destruct (dict_get parent_map k) as [p|] eqn:Ep; [|discriminate].
    destruct (String.eqb p "") eqn:Ee; [discriminate|].
    simpl. rewrite Hk.
    assert (Hfound : match dict_get row_index k with
                     | Some row => if is_initiative_type (issue_type row)
                                   then Some (key row) else None
                     | None => None end = None).
    { destruct (dict_get row_index k) as [row|] eqn:Eg; [|reflexivity].
      rewrite (Hb O k row); [reflexivity|lia|reflexivity|exact Eg]. }
    rewrite Hfound, Ep, Ee.
    assert (IHp : fst (walk fuel p (k :: vis) parent_map row_index) = Some (key r)).
    { apply (IH fuel p (k :: vis) c r); try assumption; [lia|..].
      - intros m c' r' Hm Hh' Hg'. apply (Hb (S m) c' r'); [lia| |exact Hg'].
        rewrite (hop_succ k p m Ep Ee). exact Hh'.
      - intros m1 m2 c' H1 H2 Hh1 Hh2.
        assert (S m1 = S m2); [|lia].
        apply (Hd (S m1) (S m2) c'); try lia; rewrite (hop_succ _ p _ Ep Ee); assumption.
      - intros m c' Hm Hh' [<-|Hin].
        + assert (S m = O); [|discriminate].
          apply (Hd (S m) O k); try lia; [rewrite (hop_succ _ p _ Ep Ee); exact Hh'|reflexivity].
        + apply (Hv (S m) c'); [lia| |exact Hin]. rewrite (hop_succ _ p _ Ep Ee). exact Hh'. }
    destruct (walk fuel p (k :: vis) parent_map row_index) as [res i]. exact IHp.
Qed.

End Walk.

End WalkFacts.

(** X4: if the parent chain from [issue_key] reaches, within 19 hops and
    without revisiting a key, a key whose indexed row is an Initiative,
    and no earlier key on the chain indexes an Initiative row, then
    [find_initiative_key] returns that Initiative row's key. *)
Theorem find_initiative_key_complete (parent_map : Dict string)
    (row_index : Dict Row) (issue_key : string) (n : nat) (c : string) (r : Row)
    (Hn : (n < 20)%nat)
    (Hhop : hop parent_map issue_key n = Some c)
    (Hrow : dict_get row_index c = Some r)
    (Hinit : is_initiative_type (issue_type r) = true)
    (Hbefore : forall m c' r', (m < n)%nat -> hop parent_map issue_key m = Some c' ->
       dict_get row_index c' = Some r' -> is_initiative_type (issue_type r') = false)
    (Hdistinct : forall m1 m2 c', (m1 <= n)%nat -> (m2 <= n)%nat ->
       hop parent_map issue_key m1 = Some c' -> hop parent_map issue_key m2 = Some c' ->
       m1 = m2) :
  find_initiative_key issue_key parent_map row_index = Some (key r).
Proof.
  unfold find_initiative_key.
  apply (WalkFacts.walk_complete parent_map row_index n 20 issue_key [] c r);
    try assumption.
  intros m c' _ _ [].
Qed.

Lemma find_initiative_key_complete_witness :
  find_initiative_key "STORY-1" (build_parent_map chain_rows) (index_rows chain_rows)
  = Some (key (init_row "INIT-1" None 0)).
Proof.
  apply (find_initiative_key_complete (build_parent_map chain_rows)
           (index_rows chain_rows) "STORY-1" 2 "INIT-1" (init_row "INIT-1" None 0)).
  - lia.
  - vm_compute. reflexivity.
  - vm_compute. reflexivity.
  - vm_compute. reflexivity.
  - intros [|[|m]] c' r' Hm Hh Hg; [| |lia];
      vm_compute in Hh; injection Hh as <-; vm_compute in Hg; injection Hg as <-;
      vm_compute; reflexivity.
  - intros [|[|[|m1]]] [|[|[|m2]]] c' H1 H2 Hh1 Hh2; try lia;
      vm_compute in Hh1, Hh2; congruence.
Defined.

(* ------------------------------------------------------------------ *)
(** ** Shape of the aggregation table *)

Module ShapeFacts.
Import DictFacts AggFacts.

Lemma get_of_in {V} (d : Dict V) k : In k (map fst d) -> exists v, dict_get d k = Some v.
Proof.
  induction d as [|[k0 v0] d IH]; simpl; [intros []|].
  destruct (String.eqb_spec k k0) as [->|Hne]; [eauto|].
  intros [->|Hin]; [congruence|auto].
Qed.

Lemma keys_set_in {V} (d : Dict V) k v :
  In k (map fst d) -> map fst (dict_set d k v) = map fst d.
Proof.
  induction d as [|[k0 v0] d IH]; simpl; [intros []|].
  destruct (String.eqb_spec k k0) as [->|Hne]; [reflexivity|].
  intros [->|Hin]; [congruence|]. simpl. rewrite IH; auto.
Qed.

Definition init_step (m : Dict Agg.t) (r : Row) : Dict Agg.t :=
  if is_initiative_type (issue_type r)
  then dict_set m (key r) (Agg.init (key r) (summary r) (due_date r)) else m.

Lemma initial_entry rows k a0 :
  In (k, a0) (initial_initiatives rows) ->
  exists r, In r rows /\ is_initiative_type (issue_type r) = true /\ key r = k
            /\ a0 = Agg.init k (summary r) (due_date r).
Proof.
  unfold initial_initiatives. fold init_step.
  assert (H : forall l T, (forall r, In r l -> In r rows) ->
    (forall k a, In (k, a) T -> exists r, In r rows /\ is_initiative_type (issue_type r) = true
       /\ key r = k /\ a = Agg.init k (summary r) (due_date r)) ->
    forall k a, In (k, a) (fold_left init_step l T) ->
    exists r, In r rows /\ is_initiative_type (issue_type r) = true
       /\ key r = k /\ a = Agg.init k (summary r) (due_date r)).
  { induction l as [|x l IH]; simpl; intros T Hsub HT; [exact HT|].
    apply IH; [intros; apply Hsub; auto|].
    unfold init_step. destruct (is_initiative_type (issue_type x)) eqn:Ei; [|exact HT].
    intros k' a' Hin.
    assert (Hx : forall T, In (k', a') (dict_set T (key x)
                  (Agg.init (key x) (summary x) (due_date x))) ->
                 (k' = key x /\ a' = Agg.init (key x) (summary x) (due_date x))
                 \/ In (k', a') T).
    { clear. intros T. induction T as [|[k0 v0] T IHT]; simpl.
      - intros [[= <- <-]|[]]. auto.
      - destruct (String.eqb_spec (key x) k0) as [->|]; simpl.
        + intros [[= <- <-]|Hin]; auto.
        + intros [[= <- <-]|Hin]; [auto|]. destruct (IHT Hin); auto. }
    destruct (Hx T Hin) as [[-> ->]|Hin']; [|apply HT; exact Hin'].
    exists x. repeat split; auto. }
  apply H; [auto|simpl; intros ? ? []].
Qed.

Lemma initial_keys rows r :
  In r rows -> is_initiative_type (issue_type r) = true ->
  In (key r) (map fst (initial_initiatives rows)).
Proof.
  unfold initial_initiatives. fold init_step.
  assert (Hmono : forall l T k, In k (map fst T) -> In k (map fst (fold_left init_step l T))).
  { induction l as [|x l IH]; simpl; intros T k Hk; [exact Hk|].
    apply IH. unfold init_step. destruct (is_initiative_type (issue_type x)); [|exact Hk].
    apply keys_set. auto. }
  generalize (@nil (string * Agg.t)).
  induction rows as [|x l IH]; simpl; [intros _ []|].
  intros T [->|Hin] Hi; [|apply IH; assumption].
  apply Hmono. unfold init_step. rewrite Hi. apply keys_set. auto.
Qed.

Lemma fold_rows_id_name l a :
  Agg.id (fold_left fold_row l a) = Agg.id a /\ Agg.name (fold_left fold_row l a) = Agg.name a.
Proof.
  revert a. induction l as [|x l IH]; simpl; intros a; [auto|].
  destruct (IH (fold_row a x)) as [-> ->]. simpl. auto.
Qed.

Section Fold.
Variable rows : list Row.
Let pm := build_parent_map rows.
Let ri := index_rows rows.
Let T0 := initial_initiatives rows.

Definition Shape (l : list Row) (T : Dict Agg.t) : Prop :=
  map fst T = map fst T0 /\
  forall k a, In (k, a) T -> exists a0, In (k, a0) T0
    /\ (k <> "" -> a = fold_left fold_row (res pm ri k l) a0) /\ (k = "" -> a = a0).

Lemma find_in_T0 k ikey :
  find_initiative_key k pm ri = Some ikey -> In ikey (map fst T0).
Proof.
  intros Hf. destruct (ResolverFacts.walk_sound pm ri 20 k [] ikey Hf)
    as (n & c & r & _ & _ & Hg & Hi & <-).
  apply ResolverFacts.index_rows_get in Hg. destruct Hg as [_ Hin].
  apply initial_keys; assumption.
Qed.

Lemma Shape_step l T r : Shape l T -> Shape (l ++ [r]) (aggregate_step pm ri T r).
Proof.
  intros [Hkeys Hent]. unfold aggregate_step.
  destruct (find_initiative_key (key r) pm ri) as [ikey|] eqn:Ef.
  2:{ split; [exact Hkeys|]. intros k a Hka.
      destruct (Hent k a Hka) as (a0 & H0 & Hne & He). exists a0. split; [exact H0|].
      split; [|exact He]. intros Hk. rewrite res_snoc. unfold resolves_to. rewrite Ef.
      auto. }
  destruct (String.eqb_spec ikey "") as [Hemp|Hne].
  { split; [exact Hkeys|]. intros k a Hka.
    destruct (Hent k a Hka) as (a0 & H0 & Hn & He). exists a0. split; [exact H0|].
    split; [|exact He]. intros Hk. rewrite res_snoc. unfold resolves_to. rewrite Ef.
    destruct (String.eqb_spec ikey k); [congruence|auto]. }
  assert (HinT : In ikey (map fst T)) by (rewrite Hkeys; exact (find_in_T0 _ _ Ef)).
  destruct (get_of_in T ikey HinT) as [a Ea]. rewrite Ea.
  assert (Hnd : NoDup (map fst T)) by (rewrite Hkeys; apply (proj1 (InitFacts.initial_shape rows))).
  split; [rewrite keys_set_in; assumption|].
  intros k a' Hka. destruct (in_set _ _ _ _ _ Hnd Hka) as [[-> ->]|[Hk Hka']].
  - destruct (Hent ikey a (get_in _ _ _ Ea)) as (a0 & H0 & Hf & _).
    exists a0. split; [exact H0|]. split; [|congruence]. intros _.
    rewrite res_snoc. unfold resolves_to at 1. rewrite Ef, String.eqb_refl.
    rewrite fold_left_app. simpl. rewrite (Hf Hne). reflexivity.
  - destruct (Hent k a' Hka') as (a0 & H0 & Hf & He). exists a0. split; [exact H0|].
    split; [|exact He]. intros Hk'. rewrite res_snoc. unfold resolves_to at 1. rewrite Ef.
    destruct (String.eqb_spec ikey k); [congruence|auto].
Qed.

Lemma Shape_fold rs : forall l T,
  Shape l T -> Shape (l ++ rs) (fold_left (aggregate_step pm ri) rs T).
Proof.
  induction rs as [|r rs IH]; simpl; intros l T H.
  - rewrite app_nil_r. exact H.
  - replace (l ++ r :: rs)%list with ((l ++ [r]) ++ rs)%list
      by (rewrite <- app_assoc; reflexivity).
    apply IH. apply Shape_step. exact H.
Qed.

End Fold.

(** Every entry of the final table is the entry the Initiative pre-pass
    created, folded over exactly the rows resolving to its key; the keys
    are those of the pre-pass. *)
Lemma aggregate_shape rows :
  map fst (aggregate rows) = map fst (initial_initiatives rows) /\
  forall k a, In (k, a) (aggregate rows) -> exists a0,
    In (k, a0) (initial_initiatives rows)
    /\ (k <> "" -> a = fold_left fold_row (rows_resolving_to rows k) a0)
    /\ (k = "" -> a = a0).
Proof.
  assert (H : Shape rows [] (initial_initiatives rows)).
  { split; [reflexivity|]. intros k a Hka. exists a. split; [exact Hka|].
    split; intros; reflexivity. }
  apply (Shape_fold rows rows) in H. simpl in H. exact H.
Qed.

Lemma aggregate_entry rows k a :
  In (k, a) (aggregate rows) -> k <> "" ->
  exists r0, In r0 rows /\ is_initiative_type (issue_type r0) = true /\ key r0 = k
    /\ a = fold_left fold_row (rows_resolving_to rows k)
             (Agg.init k (summary r0) (due_date r0)).
Proof.
  intros Hin Hk. destruct (proj2 (aggregate_shape rows) k a Hin) as (a0 & H0 & Hf & _).
  destruct (initial_entry rows k a0 H0) as (r0 & Hr0 & Hi & Hkey & ->).
  exists r0. repeat split; auto.
Qed.

End ShapeFacts.

(** X5: the snapshot has one record per distinct key of an Initiative
    row, and no other: its ids are pairwise distinct, they are exactly the
    keys of the Initiative rows, and every record's name is the summary of
    an Initiative row with its key.  A row whose chain ends at a key with
    no Initiative row is dropped; no placeholder record is ever created. *)
Theorem transform_initiative_ids (parse_date : string -> option Z)
    (rows : list Row) (w : string) (snap : Snapshot)
    (Hok : transform parse_date rows w = Ok snap) :
  NoDup (map Snap.id (initiatives snap))
  /\ (forall k, In k (map Snap.id (initiatives snap))
        <-> exists r, In r rows /\ is_initiative_type (issue_type r) = true /\ key r = k)
  /\ (forall i, In i (initiatives snap) ->
        exists r, In r rows /\ is_initiative_type (issue_type r) = true
                  /\ key r = Snap.id i /\ Snap.name i = summary r).
Proof.
  destruct (ShapeFacts.aggregate_shape rows) as [Hkeys Hent].
  assert (Hid : forall kv, In kv (aggregate rows) ->
            Agg.id (snd kv) = fst kv
            /\ exists r, In r rows /\ is_initiative_type (issue_type r) = true
                 /\ key r = fst kv /\ Agg.name (snd kv) = summary r).
  { intros [k a] Hin. simpl. destruct (Hent k a Hin) as (a0 & H0 & Hf & He).
    destruct (ShapeFacts.initial_entry rows k a0 H0) as (r & Hr & Hi & Hkr & Ha0).
    assert (Agg.id a = Agg.id a0 /\ Agg.name a = Agg.name a0) as [E1 E2].
    { destruct (String.eqb_spec k "") as [Hk|Hk].
      - rewrite (He Hk). auto.
      - rewrite (Hf Hk). apply ShapeFacts.fold_rows_id_name. }
    rewrite E1, E2, Ha0. simpl. split; [reflexivity|]. exists r. auto. }
  pose proof Hok as Hok'.
  unfold transform in Hok. destruct (parse_date w) as [we|]; [|discriminate].
  injection Hok as <-. simpl.
  set (L := map (fun kv => finalize we (snd kv)) (aggregate rows)).
  assert (Hperm : Permutation (sort_snap L) (rev L)).
  { unfold sort_snap. rewrite (SortFacts.sort_perm_acc L []), app_nil_r. reflexivity. }
  assert (Hids : map Snap.id L = map fst (aggregate rows)).
  { subst L. rewrite map_map. apply map_ext_in. intros kv Hkv. simpl.
    exact (proj1 (Hid kv Hkv)). }
  assert (Hpid : Permutation (map Snap.id (sort_snap L)) (rev (map fst (aggregate rows)))).
  { rewrite <- Hids, <- map_rev. apply Permutation_map. exact Hperm. }
  split; [|split].
  - apply (Permutation_NoDup (Permutation_sym Hpid)). apply NoDup_rev.
    rewrite Hkeys. apply (proj1 (InitFacts.initial_shape rows)).
  - intros k. split.
    + intros Hin. apply (Permutation_in _ Hpid) in Hin. apply in_rev in Hin.
      apply in_map_iff in Hin. destruct Hin as [kv [<- Hkv]].
      destruct (Hid kv Hkv) as [_ (r & Hr & Hi & Hk & _)]. eauto.
    + intros (r & Hr & Hi & <-).
      apply (Permutation_in _ (Permutation_sym Hpid)).
      apply (in_rev (map fst (aggregate rows))). rewrite Hkeys. apply ShapeFacts.initial_keys; assumption.
  - intros i Hin. destruct (TransformFacts.transform_records _ _ _ _ _ Hok' Hin)
      as (we' & kv & Hwe & Hkv & ->).
    destruct (Hid kv Hkv) as [Hi1 (r & Hr & Hi & Hk & Hn)].
    exists r. simpl. rewrite Hi1. auto.
Qed.

Lemma transform_initiative_ids_witness :
  map Snap.id (initiatives fixture_snapshot) = ["INIT-1"; "INIT-2"]
  /\ NoDup (map Snap.id (initiatives fixture_snapshot)).
Proof.
  assert (Hok : transform fixture_parse_date fixture_rows "2026-02-06" = Ok fixture_snapshot)
    by (vm_compute; reflexivity).
  split; [vm_compute; reflexivity|].
  exact (proj1 (transform_initiative_ids fixture_parse_date fixture_rows "2026-02-06"
                  fixture_snapshot Hok)).
Defined.

(* ------------------------------------------------------------------ *)
(** ** The rollup fields *)

Module RollupFacts.

Lemma fold_rows_sums l a :
  Agg.total_points (fold_left fold_row l a)
    = Agg.total_points a
      + sumZ (map story_points (filter (fun r => is_points_type (issue_type r)) l))
  /\ Agg.done_points (fold_left fold_row l a)
    = Agg.done_points a
      + sumZ (map story_points (filter (fun r => is_points_type (issue_type r)
                                                 && String.eqb (status r) "Done") l))
  /\ Agg.scope_changes_14d (fold_left fold_row l a)
    = Agg.scope_changes_14d a + sumZ (map scope_changes_14d l)
  /\ Agg.critical_dependency (fold_left fold_row l a)
    = Agg.critical_dependency a || existsb (fun r => 3 <=? blocks r) l
  /\ Agg.status_notes (fold_left fold_row l a)
    = app (Agg.status_notes a)
          (map (fun r => "Blocked: " ++ summary r)
               (filter (fun r => String.eqb (status r) "Blocked"
                                 && negb (String.eqb (summary r) "")) l)).
Proof.
  revert a. induction l as [|x l IH]; intros a; simpl.
  - rewrite orb_false_r, app_nil_r. repeat split; lia.
  - destruct (IH (fold_row a x)) as (E1 & E2 & E3 & E4 & E5).
    rewrite E1, E2, E3, E4, E5. unfold fold_row. simpl.
    split; [destruct (is_points_type (issue_type x)); simpl; lia|].
    split; [destruct (is_points_type (issue_type x) && String.eqb (status x) "Done");
            simpl; lia|].
    split; [lia|].
    split; [rewrite orb_assoc; reflexivity|].
    destruct (String.eqb (status x) "Blocked" && negb (String.eqb (summary x) ""));
      simpl; [|reflexivity].
    rewrite <- app_assoc. reflexivity.
Qed.

(** One step of the earliest-due-date update. *)
Lemma due_step a x :
  (Agg.due_date (fold_row a x) = None <-> Agg.due_date a = None /\ due_date x = None)
  /\ forall d, Agg.due_date (fold_row a x) = Some d ->
       (Agg.due_date a = Some d \/ due_date x = Some d)
       /\ (forall e, Agg.due_date a = Some e -> d <= e)
       /\ (forall e, due_date x = Some e -> d <= e).
Proof.
  unfold fold_row. simpl.
  destruct (due_date x) as [dx|], (Agg.due_date a) as [da|]; simpl.
  - destruct (dx <? da) eqn:E;
      (split; [split; [discriminate|intros [? ?]; discriminate]|]); intros d [= <-].
    + apply Z.ltb_lt in E. split; [auto|split; intros e [= <-]; lia].
    + apply Z.ltb_ge in E. split; [auto|split; intros e [= <-]; lia].
  - split; [split; [discriminate|intros [? ?]; discriminate]|].
    intros d [= <-]. split; [auto|split; intros e He; [discriminate|injection He; lia]].
  - split; [split; [discriminate|intros [? ?]; discriminate]|].
    intros d [= <-]. split; [auto|split; intros e He; [injection He; lia|discriminate]].
  - split; [tauto|discriminate].
Qed.

Lemma fold_rows_due l a :
  let D := (Agg.due_date a :: map due_date l)%list in
  (Agg.due_date (fold_left fold_row l a) = None <-> Forall (fun d => d = None) D)
  /\ forall d, Agg.due_date (fold_left fold_row l a) = Some d ->
       In (Some d) D /\ forall d', In (Some d') D -> d <= d'.
Proof.
  revert a. induction l as [|x l IH]; intros a; simpl.
  - split.
    + split; [intros H; constructor; [exact H|constructor]|intros H; inversion H; assumption].
    + intros d Hd. split; [auto|]. intros d' [Hd'|[]]. rewrite Hd in Hd'.
      injection Hd' as ->. lia.
  - destruct (IH (fold_row a x)) as [Hn Hs]. cbv zeta in Hn, Hs.
    destruct (due_step a x) as [Hn1 Hs1]. split.
    + rewrite Hn. split.
      * intros H. inversion H as [|? ? H1 H2]; subst. apply Hn1 in H1. destruct H1.
        repeat constructor; assumption.
      * intros H. inversion H as [|? ? H1 H2]; subst. inversion H2 as [|? ? H3 H4]; subst.
        constructor; [apply Hn1; auto|exact H4].
    + intros d Hd. destruct (Hs d Hd) as [Hin Hmin]. split.
      * destruct Hin as [Hin|Hin]; [|auto].
        destruct (proj1 (Hs1 d Hin)) as [H|H]; [left|right; left]; auto.
      * intros d' [H|[H|H]].
        -- destruct (Agg.due_date (fold_row a x)) as [e|] eqn:Ee.
           ++ specialize (Hmin e (or_introl eq_refl)).
              destruct (Hs1 e eq_refl) as (_ & H1 & _). specialize (H1 d' H). lia.
           ++ destruct (proj1 Hn1 eq_refl) as [Ea _]. congruence.
        -- destruct (Agg.due_date (fold_row a x)) as [e|] eqn:Ee.
           ++ specialize (Hmin e (or_introl eq_refl)).
              destruct (Hs1 e eq_refl) as (_ & _ & H1). specialize (H1 d' H). lia.
           ++ destruct (proj1 Hn1 eq_refl) as [_ Ex]. congruence.
        -- apply Hmin. right. exact H.
Qed.

End RollupFacts.

(** X6: for an initiative with a non-empty key, [total_points] is the sum
    of the story points of the rows resolving to it whose issue type is
    story, sub-task, subtask or task, and [done_points] the same sum over
    those rows whose status is Done. *)
Theorem aggregate_points_rollup (rows : list Row) (k : string) (a : Agg.t)
    (Hin : In (k, a) (aggregate rows)) (Hk : k <> "") :
  Agg.total_points a
    = sumZ (map story_points (filter (fun r => is_points_type (issue_type r))
                                     (rows_resolving_to rows k)))
  /\ Agg.done_points a
    = sumZ (map story_points (filter (fun r => is_points_type (issue_type r)
                                               && String.eqb (status r) "Done")
                                     (rows_resolving_to rows k))).
Proof.
  destruct (ShapeFacts.aggregate_entry rows k a Hin Hk) as (r0 & _ & _ & _ & ->).
  destruct (RollupFacts.fold_rows_sums (rows_resolving_to rows k)
              (Agg.init k (summary r0) (due_date r0))) as (E1 & E2 & _).
  rewrite E1, E2. simpl. auto.
Qed.

Lemma aggregate_points_rollup_witness :
  In ("INIT-1", Agg.mk "INIT-1" "INIT-1" 8 5 2 1 4 true 0 (Some 10) ["Blocked: STORY-2"])
     (aggregate fixture_rows)
  /\ Agg.total_points (Agg.mk "INIT-1" "INIT-1" 8 5 2 1 4 true 0 (Some 10) ["Blocked: STORY-2"])
     = sumZ (map story_points (filter (fun r => is_points_type (issue_type r))
                                      (rows_resolving_to fixture_rows "INIT-1"))).
Proof.
  assert (H : In ("INIT-1", Agg.mk "INIT-1" "INIT-1" 8 5 2 1 4 true 0 (Some 10)
                              ["Blocked: STORY-2"]) (aggregate fixture_rows))
    by (vm_compute; left; reflexivity).
  split; [exact H|].
  exact (proj1 (aggregate_points_rollup fixture_rows "INIT-1" _ H
                  ltac:(discriminate))).
Defined.

(** X7: for an initiative with a non-empty key, [scope_changes_14d] is
    the sum of the scope changes of the rows resolving to it, and
    [critical_dependency] holds exactly when one of those rows blocks at
    least 3 issues. *)
Theorem aggregate_scope_critical_rollup (rows : list Row) (k : string) (a : Agg.t)
    (Hin : In (k, a) (aggregate rows)) (Hk : k <> "") :
  Agg.scope_changes_14d a = sumZ (map scope_changes_14d (rows_resolving_to rows k))
  /\ (Agg.critical_dependency a = true
      <-> exists r, In r (rows_resolving_to rows k) /\ 3 <= blocks r).
Proof.
  destruct (ShapeFacts.aggregate_entry rows k a Hin Hk) as (r0 & _ & _ & _ & ->).
  destruct (RollupFacts.fold_rows_sums (rows_resolving_to rows k)
              (Agg.init k (summary r0) (due_date r0))) as (_ & _ & E3 & E4 & _).
  rewrite E3, E4. simpl. split; [reflexivity|].
  rewrite existsb_exists. split; intros (r & Hr & Hb); exists r; split; auto;
    [apply Z.leb_le|apply Z.leb_le in Hb]; assumption.
Qed.

Lemma aggregate_scope_critical_rollup_witness :
  In ("INIT-1", Agg.mk "INIT-1" "INIT-1" 8 5 2 1 4 true 0 (Some 10) ["Blocked: STORY-2"])
     (aggregate fixture_rows)
  /\ exists r, In r (rows_resolving_to fixture_rows "INIT-1") /\ 3 <= blocks r.
Proof.
  assert (H : In ("INIT-1", Agg.mk "INIT-1" "INIT-1" 8 5 2 1 4 true 0 (Some 10)
                              ["Blocked: STORY-2"]) (aggregate fixture_rows))
    by (vm_compute; left; reflexivity).
  split; [exact H|].
  apply (proj2 (aggregate_scope_critical_rollup fixture_rows "INIT-1" _ H
                  ltac:(discriminate))).
  reflexivity.
Defined.

(** X8: for an initiative with a non-empty key, the status notes are
    ["Blocked: " ++ summary], in row order, for exactly the rows resolving
    to it whose status is Blocked and whose summary is non-empty. *)
Theorem aggregate_status_notes (rows : list Row) (k : string) (a : Agg.t)
    (Hin : In (k, a) (aggregate rows)) (Hk : k <> "") :
  Agg.status_notes a
  = map (fun r => "Blocked: " ++ summary r)
        (filter (fun r => String.eqb (status r) "Blocked" && negb (String.eqb (summary r) ""))
                (rows_resolving_to rows k)).
Proof.
  destruct (ShapeFacts.aggregate_entry rows k a Hin Hk) as (r0 & _ & _ & _ & ->).
  destruct (RollupFacts.fold_rows_sums (rows_resolving_to rows k)
              (Agg.init k (summary r0) (due_date r0))) as (_ & _ & _ & _ & E5).
  rewrite E5. reflexivity.
Qed.

Lemma aggregate_status_notes_witness :
  In ("INIT-1", Agg.mk "INIT-1" "INIT-1" 8 5 2 1 4 true 0 (Some 10) ["Blocked: STORY-2"])
     (aggregate fixture_rows)
  /\ ["Blocked: STORY-2"]
     = map (fun r => "Blocked: " ++ summary r)
         (filter (fun r => String.eqb (status r) "Blocked" && negb (String.eqb (summary r) ""))
                 (rows_resolving_to fixture_rows "INIT-1")).
Proof.
  assert (H : In ("INIT-1", Agg.mk "INIT-1" "INIT-1" 8 5 2 1 4 true 0 (Some 10)
                              ["Blocked: STORY-2"]) (aggregate fixture_rows))
    by (vm_compute; left; reflexivity).
  split; [exact H|].
  exact (aggregate_status_notes fixture_rows "INIT-1" _ H ltac:(discriminate)).
Defined.

(** X9: for an initiative with a non-empty key, the due date is the
    earliest of the due dates of an Initiative row with that key and of
    the rows resolving to it, and is absent exactly when none of them has
    one. *)
Theorem aggregate_due_date_earliest (rows : list Row) (k : string) (a : Agg.t)
    (Hin : In (k, a) (aggregate rows)) (Hk : k <> "") :
  exists r0, In r0 rows /\ is_initiative_type (issue_type r0) = true /\ key r0 = k
  /\ (Agg.due_date a = None
      <-> Forall (fun d => d = None) (due_date r0 :: map due_date (rows_resolving_to rows k)))
  /\ forall d, Agg.due_date a = Some d ->
       In (Some d) (due_date r0 :: map due_date (rows_resolving_to rows k))
       /\ forall d', In (Some d') (due_date r0 :: map due_date (rows_resolving_to rows k)) ->
                     d <= d'.
Proof.
  destruct (ShapeFacts.aggregate_entry rows k a Hin Hk) as (r0 & Hr0 & Hi & Hkey & ->).
  destruct (RollupFacts.fold_rows_due (rows_resolving_to rows k)
              (Agg.init k (summary r0) (due_date r0))) as [Hn Hs].
  exists r0. split; [exact Hr0|split; [exact Hi|split; [exact Hkey|]]].
  split; [exact Hn|exact Hs].
Qed.

Lemma aggregate_due_date_earliest_witness :
  In ("INIT-1", Agg.mk "INIT-1" "INIT-1" 8 5 2 1 4 true 0 (Some 10) ["Blocked: STORY-2"])
     (aggregate fixture_rows)
  /\ exists r0, In r0 fixture_rows /\ key r0 = "INIT-1"
     /\ forall d', In (Some d') (due_date r0 :: map due_date (rows_resolving_to fixture_rows "INIT-1"))
                   -> 10 <= d'.
Proof.
  assert (H : In ("INIT-1", Agg.mk "INIT-1" "INIT-1" 8 5 2 1 4 true 0 (Some 10)
                              ["Blocked: STORY-2"]) (aggregate fixture_rows))
    by (vm_compute; left; reflexivity).
  split; [exact H|].
  destruct (aggregate_due_date_earliest fixture_rows "INIT-1" _ H ltac:(discriminate))
    as (r0 & Hr0 & _ & Hk & _ & Hs).
  exists r0. split; [exact Hr0|split; [exact Hk|]].
  exact (proj2 (Hs 10 eq_refl)).
Defined.

(** X10: every snapshot record with a non-empty id carries one or two
    status notes: the first two ["Blocked: " ++ summary] notes of the rows
    resolving to it, or the single default note when there is none. *)
Theorem transform_status_notes (parse_date : string -> option Z)
    (rows : list Row) (w : string) (snap : Snapshot) (i : Snap.t)
    (Hok : transform parse_date rows w = Ok snap) (Hin : In i (initiatives snap))
    (Hid : Snap.id i <> "") :
  Snap.status_notes i
  = match firstn 2 (map (fun r => "Blocked: " ++ summary r)
                      (filter (fun r => String.eqb (status r) "Blocked"
                                        && negb (String.eqb (summary r) ""))
                              (rows_resolving_to rows (Snap.id i)))) with
    | [] => ["No significant blockers detected in snapshot."]
    | l => l
    end
  /\ (1 <= List.length (Snap.status_notes i) <= 2)%nat.
Proof.
  destruct (TransformFacts.transform_records _ _ _ _ _ Hok Hin)
    as (we & [k a] & _ & Hkv & ->).
  replace (Snap.status_notes (finalize we (snd (k, a))))
    with (match firstn 2 (Agg.status_notes a) with
          | [] => ["No significant blockers detected in snapshot."]
          | l => l end) by reflexivity.
  replace (Snap.id (finalize we (snd (k, a)))) with (Agg.id a) in * by reflexivity.
  assert (Hk : k <> "").
  { destruct (String.eqb_spec k "") as [->|]; [|assumption].
    destruct (proj2 (ShapeFacts.aggregate_shape rows) "" a Hkv) as (a0 & H0 & _ & He).
    rewrite (He eq_refl) in Hid.
    destruct (ShapeFacts.initial_entry rows "" a0 H0) as (r & _ & _ & _ & ->).
    simpl in Hid. congruence. }
  destruct (ShapeFacts.aggregate_entry rows k a Hkv Hk) as (r0 & _ & _ & _ & Ha).
  assert (Hida : Agg.id a = k).
  { rewrite Ha. rewrite (proj1 (ShapeFacts.fold_rows_id_name _ _)). reflexivity. }
  rewrite Hida.
  assert (Hn : Agg.status_notes a
               = map (fun r => "Blocked: " ++ summary r)
                   (filter (fun r => String.eqb (status r) "Blocked"
                                     && negb (String.eqb (summary r) ""))
                           (rows_resolving_to rows k))).
  { rewrite Ha. rewrite (proj2 (proj2 (proj2 (proj2 (RollupFacts.fold_rows_sums _ _))))).
    reflexivity. }
  rewrite <- Hn. split; [reflexivity|].
  destruct (Agg.status_notes a) as [|n1 [|n2 l]]; simpl; lia.
Qed.

Lemma transform_status_notes_witness :
  map Snap.status_notes (initiatives fixture_snapshot)
  = [["Blocked: STORY-2"]; ["No significant blockers detected in snapshot."]]
  /\ (1 <= List.length (Snap.status_notes (hd (Snap.mk "" "" 0 0 "" 0 0 0 0 false 0 [])
                                             (initiatives fixture_snapshot))) <= 2)%nat.
Proof.
  assert (Hok : transform fixture_parse_date fixture_rows "2026-02-06" = Ok fixture_snapshot)
    by (vm_compute; reflexivity).
  split; [vm_compute; reflexivity|].
  refine (proj2 (transform_status_notes fixture_parse_date fixture_rows "2026-02-06"
                   fixture_snapshot _ Hok _ _)).
  - vm_compute. left. reflexivity.
  - vm_compute. discriminate.
Defined.

(** X11: the prior score of every snapshot record is between 0 and 100,
    and it is at most 8 points above the current score, so [delta] is
    never below -8. *)
Theorem finalize_prior_bounds (we : Z) (a : Agg.t) :
  0 <= Snap.dcs_prior (finalize we a) <= 100 /\ -8 <= delta (finalize we a).
Proof.
  unfold delta. simpl.
  pose proof (ScoreFacts.dcs_bounds (pct_done_of (Agg.done_points a) (Agg.total_points a))
      (Agg.blocked_days a) (Agg.scope_changes_14d a) (Agg.dependency_count a)
      (Agg.critical_dependency a) (option_map (fun d => d - we) (Agg.due_date a))
      (has_blocked_items (Agg.status_notes a))) as Hd.
  set (d := dcs_from_signals _ _ _ _ _ _ _) in *.
  destruct (has_blocked_items (Agg.status_notes a)); lia.
Qed.

Module MonoFacts.
Import ScoreFacts.

Lemma Qclamp01_mono p p' : (p <= p')%Q -> (Qclamp01 p <= Qclamp01 p')%Q.
Proof.
  intros H. unfold Qclamp01. apply Q.max_le_compat_l. apply Q.min_le_compat_l. exact H.
Qed.

Lemma progress_penalty_anti p p' : (p <= p')%Q -> progress_penalty p' <= progress_penalty p.
Proof.
  intros H. unfold progress_penalty.
  pose proof (Qclamp01_mono _ _ H) as Hc.
  pose proof (Qclamp01_bounds p) as [H0 H1]. pose proof (Qclamp01_bounds p') as [H0' H1'].
  rewrite !py_int_nonneg by lra. apply Qfloor_resp_le. lra.
Qed.

Lemma due_penalty_anti_pct p p' t : (p <= p')%Q -> due_penalty p' t <= due_penalty p t.
Proof.
  intros H. unfold due_penalty. destruct t as [x|]; [|lia].
  destruct (x <=? 7), (x <=? 14); simpl;
  destruct (Qlt_bool p' (4 # 5)) eqn:E1, (Qlt_bool p (4 # 5)) eqn:E2,
           (Qlt_bool p' (3 # 5)) eqn:E3, (Qlt_bool p (3 # 5)) eqn:E4; simpl; try lia;
  repeat match goal with
  | E : Qlt_bool _ _ = true |- _ => apply Qlt_bool_iff in E
  | E : Qlt_bool _ _ = false |- _ => apply Qlt_bool_false in E
  end; lra.
Qed.

Lemma due_penalty_anti_days p x y : x <= y -> due_penalty p (Some y) <= due_penalty p (Some x).
Proof.
  intros H. unfold due_penalty.
  destruct (y <=? 7) eqn:Ey7, (x <=? 7) eqn:Ex7, (y <=? 14) eqn:Ey14, (x <=? 14) eqn:Ex14;
    rewrite ?Z.leb_le, ?Z.leb_gt in *; try lia;
    destruct (Qlt_bool p (4 # 5)), (Qlt_bool p (3 # 5)); simpl; lia.
Qed.

Lemma due_penalty_nonneg p t : 0 <= due_penalty p t.
Proof.
  unfold due_penalty. destruct t; [|lia].
  destruct (_ && _); [lia|]. destruct (_ && _); lia.
Qed.

End MonoFacts.

(** X12: the confidence score never rises when a risk signal grows: more
    blocked days, more scope changes, more blocking links, a critical
    dependency or a blocked item each lower it or leave it unchanged. *)
Theorem dcs_from_signals_antitone (p : Q) (b b' s s' d d' : Z) (c c' : bool)
    (t : option Z) (h h' : bool)
    (Hb : b <= b') (Hs : s <= s') (Hd : d <= d')
    (Hc : c = true -> c' = true) (Hh : h = true -> h' = true) :
  dcs_from_signals p b' s' d' c' t h' <= dcs_from_signals p b s d c t h.
Proof.
  unfold dcs_from_signals.
  set (pp := progress_penalty p). set (dp := due_penalty p t).
  destruct c, c', h, h'; try (specialize (Hc eq_refl); discriminate);
    try (specialize (Hh eq_refl); discriminate); lia.
Qed.

Lemma dcs_from_signals_antitone_witness :
  dcs_from_signals 0 3 1 0 false None false <= dcs_from_signals 0 1 1 0 false None false
  /\ dcs_from_signals 0 3 1 0 false None false = 51.
Proof.
  split; [|vm_compute; reflexivity].
  apply dcs_from_signals_antitone; try lia; auto.
Defined.

(** X13: the confidence score never falls when more of the work is done,
    or when the target date is further away; a missing target date counts
    as the furthest. *)
Theorem dcs_from_signals_monotone (p p' : Q) (b s d : Z) (c : bool) (t : option Z)
    (x y : Z) (h : bool) (Hp : (p <= p')%Q) (Hxy : x <= y) :
  dcs_from_signals p b s d c t h <= dcs_from_signals p' b s d c t h
  /\ dcs_from_signals p b s d c (Some x) h <= dcs_from_signals p b s d c (Some y) h
  /\ dcs_from_signals p b s d c (Some x) h <= dcs_from_signals p b s d c None h.
Proof.
  pose proof (MonoFacts.progress_penalty_anti _ _ Hp).
  pose proof (MonoFacts.due_penalty_anti_pct _ _ t Hp).
  pose proof (MonoFacts.due_penalty_anti_days p _ _ Hxy).
  pose proof (MonoFacts.due_penalty_nonneg p (Some x)).
  unfold dcs_from_signals.
  assert (Hnone : due_penalty p None = 0) by reflexivity.
  destruct c, h; lia.
Qed.

Lemma dcs_from_signals_monotone_witness :
  dcs_from_signals (1 # 2) 0 0 0 false (Some 5) false
    <= dcs_from_signals (1 # 2) 0 0 0 false (Some 20) false
  /\ dcs_from_signals (1 # 2) 0 0 0 false (Some 5) false = 70.
Proof.
  split; [|vm_compute; reflexivity].
  apply (dcs_from_signals_monotone (1 # 2) (1 # 2) 0 0 0 false None 5 20 false);
    [apply Qle_refl|lia].
Defined.

(* ------------------------------------------------------------------ *)
(** ** Driver heatmap *)

Module HeatFacts.
Import ScoreFacts.

Lemma rhe_cases x : round_half_even x = Qfloor x \/ round_half_even x = Qfloor x + 1.
Proof.
  unfold round_half_even.
  destruct (Qlt_bool _ (1 # 2)); [auto|]. destruct (Qlt_bool (1 # 2) _); [auto|].
  destruct (Z.even _); auto.
Qed.

Lemma rhe_mono x y : (x <= y)%Q -> round_half_even x <= round_half_even y.
Proof.
  intros H. pose proof (Qfloor_resp_le _ _ H) as Hf.
  destruct (Z.eq_dec (Qfloor x) (Qfloor y)) as [Heq|Hne].
  2:{ destruct (rhe_cases x) as [->| ->]; destruct (rhe_cases y) as [->| ->]; lia. }
  unfold round_half_even. rewrite <- Heq. set (f := Qfloor x).
  destruct (Qlt_bool (x - inject_Z f) (1 # 2)) eqn:E1.
  { destruct (Qlt_bool (y - inject_Z f) (1 # 2)); [lia|].
    destruct (Qlt_bool (1 # 2) (y - inject_Z f)); [lia|]. destruct (Z.even f); lia. }
  apply Qlt_bool_false in E1.
  assert (E1' : Qlt_bool (y - inject_Z f) (1 # 2) = false).
  { destruct (Qlt_bool (y - inject_Z f) (1 # 2)) eqn:E; [|reflexivity].
    apply Qlt_bool_iff in E. lra. }
  rewrite E1'.
  destruct (Qlt_bool (1 # 2) (x - inject_Z f)) eqn:E2.
  - apply Qlt_bool_iff in E2.
    assert (E2' : Qlt_bool (1 # 2) (y - inject_Z f) = true) by (apply Qlt_bool_iff; lra).
    rewrite E2'. lia.
  - destruct (Qlt_bool (1 # 2) (y - inject_Z f)); [destruct (Z.even f); lia|].
    reflexivity.
Qed.

Lemma rhe_Qeq x y : (x == y)%Q -> round_half_even x = round_half_even y.
Proof.
  intros H. apply Z.le_antisymm; apply rhe_mono; rewrite H; apply Qle_refl.
Qed.

Lemma ratio_mono v v' m : 0 < m -> v <= v' ->
  (inject_Z v / inject_Z m * 10 <= inject_Z v' / inject_Z m * 10)%Q.
Proof.
  intros Hm Hv. apply Qmult_le_compat_r; [|discriminate].
  unfold Qdiv. apply Qmult_le_compat_r; [rewrite <- Zle_Qle; exact Hv|].
  apply Qinv_le_0_compat. change 0%Q with (inject_Z 0). rewrite <- Zle_Qle. lia.
Qed.

Lemma Qclamp_mono x y lo hi : (x <= y)%Q -> (Qclamp x lo hi <= Qclamp y lo hi)%Q.
Proof.
  intros H. unfold Qclamp. apply Q.max_le_compat_l. apply Q.min_le_compat_l. exact H.
Qed.

Lemma score_mono v v' m : 0 < m -> v <= v' -> score_0_10 v m <= score_0_10 v' m.
Proof.
  intros Hm Hv. unfold score_0_10.
  destruct (Z.leb_spec m 0); [lia|].
  apply rhe_mono. apply Qclamp_mono. apply ratio_mono; assumption.
Qed.

Lemma score_low v m : 0 < m -> v <= 0 -> score_0_10 v m = 0.
Proof.
  intros Hm Hv. unfold score_0_10.
  destruct (Z.leb_spec m 0) as [Hle|Hgt]; [lia|].
  rewrite (rhe_Qeq _ 0); [reflexivity|].
  pose proof (ratio_mono v 0 m Hm Hv) as H.
  assert (H0 : (inject_Z 0 / inject_Z m * 10 == 0)%Q) by (unfold Qdiv; simpl; ring).
  apply Qle_antisym; [|apply Qclamp_bounds; discriminate].
  unfold Qclamp. apply Q.max_lub; [apply Qle_refl|].
  apply (Qle_trans _ _ _ (Q.le_min_r _ _)). rewrite <- H0. exact H.
Qed.

Lemma score_high v m : 0 < m -> m <= v -> score_0_10 v m = 10.
Proof.
  intros Hm Hv. unfold score_0_10.
  destruct (Z.leb_spec m 0) as [Hle|Hgt]; [lia|].
  rewrite (rhe_Qeq _ 10); [reflexivity|].
  pose proof (ratio_mono m v m Hm Hv) as H.
  assert (H0 : (inject_Z m / inject_Z m * 10 == 10)%Q).
  { unfold Qdiv. rewrite Qmult_inv_r; [ring|].
    intros He. unfold Qeq in He. simpl in He. lia. }
  apply Qle_antisym; [apply Qclamp_bounds; discriminate|].
  unfold Qclamp. apply (Qle_trans _ (Qmin 10 (inject_Z v / inject_Z m * 10))); [|apply Q.le_max_r].
  apply Q.min_glb; [apply Qle_refl|].
  apply (Qle_trans _ (inject_Z m / inject_Z m * 10)); [rewrite H0; apply Qle_refl|exact H].
Qed.

Lemma driver_bounds (item : Snap.t) :
  let d := compute_driver_scores item in
  (0 <= confidence_risk d <= 10) /\ (0 <= blocked d <= 10)
  /\ (0 <= scope_volatility d <= 10) /\ (0 <= dependencies d <= 10)
  /\ (0 <= due_proximity d <= 10) /\ (0 <= stagnation d <= 10).
Proof.
  unfold compute_driver_scores. cbv zeta. simpl.
  pose proof (score_0_10_bounds (Snap.dependency_count item) 6).
  repeat split; try apply score_0_10_bounds;
    try (destruct (Snap.critical_dependency item); lia);
    repeat (match goal with |- context [if ?c then _ else _] => destruct c end);
    lia.
Qed.

Lemma lex_gt_asym xs ys : lex_gt xs ys = true -> lex_gt ys xs = false.
Proof.
  revert ys. induction xs as [|x xs IH]; intros [|y ys]; simpl; try discriminate; auto.
  destruct (Z.ltb_spec y x), (Z.eqb_spec x y), (Z.ltb_spec x y), (Z.eqb_spec y x);
    simpl; try lia; auto.
Qed.

Lemma lex_ge_trans xs ys zs :
  List.length xs = List.length ys -> List.length ys = List.length zs ->
  lex_gt ys xs = false -> lex_gt zs ys = false -> lex_gt zs xs = false.
Proof.
  revert ys zs. induction xs as [|x xs IH]; intros [|y ys] [|z zs]; simpl;
    try discriminate; auto.
  intros Hl1 Hl2 H1 H2.
  destruct (Z.ltb_spec x y), (Z.eqb_spec y x); simpl in H1; try discriminate;
  destruct (Z.ltb_spec y z), (Z.eqb_spec z y); simpl in H2; try discriminate;
  destruct (Z.ltb_spec x z), (Z.eqb_spec z x); simpl; try lia; auto.
  apply (IH ys zs); congruence.
Qed.

End HeatFacts.

Module SortByFacts.

Section Sort.
Context {A : Type} (lt : A -> A -> bool).
Hypothesis lt_asym : forall x y, lt x y = true -> lt y x = false.

Definition le_by (x y : A) : Prop := lt y x = false.

Lemma insert_by_perm x l : Permutation (insert_by lt x l) (x :: l).
Proof.
  induction l as [|y l IH]; simpl; [reflexivity|].
  destruct (lt x y); [reflexivity|]. rewrite IH. apply perm_swap.
Qed.

Lemma sort_by_perm l : Permutation (sort_by lt l) l.
Proof.
  unfold sort_by.
  assert (H : forall acc, Permutation (fold_left (fun acc x => insert_by lt x acc) l acc)
                                      (rev l ++ acc)).
  { induction l as [|x l IH]; intros acc; simpl; [reflexivity|].
    rewrite IH, insert_by_perm, <- app_assoc. reflexivity. }
  rewrite H, app_nil_r. symmetry. apply Permutation_rev.
Qed.

Lemma insert_by_sorted x l : Sorted le_by l -> Sorted le_by (insert_by lt x l).
Proof.
  induction l as [|y l IH]; simpl; intros Hs.
  - repeat constructor.
  - destruct (lt x y) eqn:E.
    + constructor; [exact Hs|]. constructor. unfold le_by. apply lt_asym. exact E.
    + inversion Hs as [|? ? Hs' Hhd]; subst.
      constructor; [auto|].
      destruct l as [|z l]; simpl.
      * constructor. exact E.
      * inversion Hhd; subst.
        destruct (lt x z); constructor; [exact E|assumption].
Qed.

Lemma sort_by_sorted l : Sorted le_by (sort_by lt l).
Proof.
  unfold sort_by.
  assert (H : forall acc, Sorted le_by acc ->
            Sorted le_by (fold_left (fun acc x => insert_by lt x acc) l acc)).
  { induction l as [|x l IH]; simpl; intros acc Hacc; [exact Hacc|].
    apply IH. apply insert_by_sorted. exact Hacc. }
  apply H. constructor.
Qed.

End Sort.

Lemma strongly_sorted_app {A} (R : A -> A -> Prop) l1 l2 x y :
  StronglySorted R (l1 ++ l2) -> In x l1 -> In y l2 -> R x y.
Proof.
  induction l1 as [|z l1 IH]; simpl; intros Hs Hx Hy; [destruct Hx|].
  inversion Hs as [|? ? Hs' Hall]; subst.
  destruct Hx as [->|Hx]; [|auto].
  rewrite Forall_forall in Hall. apply Hall. apply in_or_app. auto.
Qed.

(** The first [n] elements of a list sorted by a total preorder come
    before every element left out. *)
Lemma top_n {A} (R : A -> A -> Prop) n (l s : list A) x y :
  Permutation s l -> StronglySorted R s ->
  In x (firstn n s) -> In y l -> ~ In y (firstn n s) -> R x y.
Proof.
  intros Hp Hs Hx Hy Hn.
  rewrite <- (firstn_skipn n s) in Hs.
  apply (strongly_sorted_app R (firstn n s) (skipn n s)); [exact Hs|exact Hx|].
  apply (Permutation_in _ (Permutation_sym Hp)) in Hy.
  rewrite <- (firstn_skipn n s) in Hy. apply in_app_or in Hy. tauto.
Qed.

End SortByFacts.

(** X14: for a positive scale, [score_0_10] is monotone in the value,
    is 0 for any value at or below 0 and 10 for any value at or above the
    scale. *)
Theorem score_0_10_monotone (v v' m : Z) (Hm : 0 < m) (Hv : v <= v') :
  score_0_10 v m <= score_0_10 v' m
  /\ (v <= 0 -> score_0_10 v m = 0)
  /\ (m <= v -> score_0_10 v m = 10).
Proof.
  split; [apply HeatFacts.score_mono; assumption|].
  split; intros H; [apply HeatFacts.score_low|apply HeatFacts.score_high]; assumption.
Qed.

Lemma score_0_10_monotone_witness :
  score_0_10 2 5 <= score_0_10 3 5 /\ score_0_10 2 5 = 4.
Proof.
  split; [|vm_compute; reflexivity].
  apply (proj1 (score_0_10_monotone 2 3 5 ltac:(lia) ltac:(lia))).
Defined.

(** X15: driver scores are monotone in the initiative's signals: an
    initiative with a lower or equal score, at least as many blocked days,
    scope changes, blocking links and stagnant days, a critical dependency
    whenever the other has one, and a target at most as far away, gets
    every driver score at least as high. *)
Theorem compute_driver_scores_monotone (i j : Snap.t)
    (Hdcs : Snap.dcs_current j <= Snap.dcs_current i)
    (Hb : Snap.blocked_days i <= Snap.blocked_days j)
    (Hs : Snap.scope_changes_14d i <= Snap.scope_changes_14d j)
    (Hd : Snap.dependency_count i <= Snap.dependency_count j)
    (Hc : Snap.critical_dependency i = true -> Snap.critical_dependency j = true)
    (Ht : Snap.days_to_target j <= Snap.days_to_target i)
    (Hst : Snap.days_stagnant i <= Snap.days_stagnant j) :
  let di := compute_driver_scores i in
  let dj := compute_driver_scores j in
  confidence_risk di <= confidence_risk dj /\ blocked di <= blocked dj
  /\ scope_volatility di <= scope_volatility dj /\ dependencies di <= dependencies dj
  /\ due_proximity di <= due_proximity dj /\ stagnation di <= stagnation dj.
Proof.
  unfold compute_driver_scores. cbv zeta.
  cbn [confidence_risk blocked scope_volatility dependencies due_proximity stagnation].
  pose proof (HeatFacts.score_mono _ _ 6 ltac:(lia) Hd) as Hdep.
  pose proof (ScoreFacts.score_0_10_bounds (Snap.dependency_count i) 6).
  pose proof (ScoreFacts.score_0_10_bounds (Snap.dependency_count j) 6).
  split; [apply HeatFacts.score_mono; lia|].
  split; [apply HeatFacts.score_mono; lia|].
  split; [apply HeatFacts.score_mono; lia|].
  split.
  { destruct (Snap.critical_dependency i), (Snap.critical_dependency j);
      try (specialize (Hc eq_refl); discriminate); lia. }
  split; [|apply HeatFacts.score_mono; lia].
  destruct (Z.leb_spec (Snap.days_to_target i) 7), (Z.leb_spec (Snap.days_to_target j) 7),
    (Z.leb_spec (Snap.days_to_target i) 14), (Z.leb_spec (Snap.days_to_target j) 14),
    (Z.leb_spec (Snap.days_to_target i) 21), (Z.leb_spec (Snap.days_to_target j) 21); lia.
Qed.

Lemma compute_driver_scores_monotone_witness :
  confidence_risk (compute_driver_scores (Snap.mk "A" "A" 90 90 "Green" 0 0 0 0 false 30 []))
  <= confidence_risk (compute_driver_scores (Snap.mk "B" "B" 50 50 "Red" 2 1 1 4 true 5 []))
  /\ confidence_risk (compute_driver_scores (Snap.mk "B" "B" 50 50 "Red" 2 1 1 4 true 5 [])) = 8.
Proof.
  split; [|vm_compute; reflexivity].
  pose proof (compute_driver_scores_monotone
                (Snap.mk "A" "A" 90 90 "Green" 0 0 0 0 false 30 [])
                (Snap.mk "B" "B" 50 50 "Red" 2 1 1 4 true 5 [])
                ltac:(simpl; lia) ltac:(simpl; lia) ltac:(simpl; lia) ltac:(simpl; lia)
                ltac:(simpl; discriminate) ltac:(simpl; lia) ltac:(simpl; lia)) as H.
  cbv zeta in H. exact (proj1 H).
Defined.

(** X16: the heatmap rows are written worst first: the sorted rows are a
    permutation of the built rows, in non-increasing lexicographic order
    of (Confidence Risk, Due Proximity, Blocked), and [worst3] holds the
    first min(3, n) of them, none of the rows left out having a higher
    key. *)
Theorem heatmap_rows_sorted (inits : list Snap.t) :
  let rows := build_heatmap_rows inits in
  let sorted := sort_heatmap_rows rows in
  Permutation sorted rows
  /\ StronglySorted (fun x y => lex_gt (heatmap_sort_key y) (heatmap_sort_key x) = false)
                    sorted
  /\ List.length (worst3 sorted) = Nat.min 3 (List.length rows)
  /\ forall x y, In x (worst3 sorted) -> In y rows -> ~ In y (worst3 sorted) ->
       lex_gt (heatmap_sort_key y) (heatmap_sort_key x) = false.
Proof.
  cbv zeta.
  set (rows := build_heatmap_rows inits).
  set (lt := fun x y : heatmap_row => lex_gt (heatmap_sort_key x) (heatmap_sort_key y)).
  assert (Hperm : Permutation (sort_heatmap_rows rows) rows)
    by apply (SortByFacts.sort_by_perm lt).
  assert (Hss : StronglySorted (fun x y => lex_gt (heatmap_sort_key y) (heatmap_sort_key x)
                                          = false) (sort_heatmap_rows rows)).
  { apply Sorted_StronglySorted.
    - intros x y z H1 H2. apply (HeatFacts.lex_ge_trans _ (heatmap_sort_key y));
        try reflexivity; assumption.
    - apply (SortByFacts.sort_by_sorted lt). intros x y. apply HeatFacts.lex_gt_asym. }
  assert (Hw : worst3 (sort_heatmap_rows rows) = firstn 3 (sort_heatmap_rows rows)).
  { unfold worst3. destruct (Nat.leb_spec 3 (List.length (sort_heatmap_rows rows)));
      [reflexivity|]. symmetry. apply firstn_all2. lia. }
  split; [exact Hperm|split; [exact Hss|]]. rewrite Hw. split.
  - rewrite length_firstn, (Permutation_length Hperm). reflexivity.
  - intros x y Hx Hy Hn. exact (SortByFacts.top_n _ 3 _ _ x y Hperm Hss Hx Hy Hn).
Qed.

(** X17: each driver's portfolio total is between 0 and 10 times the
    number of initiatives. *)
Theorem driver_total_bounds (inits : list Snap.t) :
  Forall (fun f => 0 <= driver_total f inits <= 10 * Z.of_nat (List.length inits))
    [confidence_risk; blocked; scope_volatility; dependencies; due_proximity; stagnation].
Proof.
  assert (H : forall f, (forall it, 0 <= f (compute_driver_scores it) <= 10) ->
            0 <= driver_total f inits <= 10 * Z.of_nat (List.length inits)).
  { intros f Hf. unfold driver_total.
    assert (G : forall l acc, 0 <= acc ->
              acc <= fold_left (fun acc it => acc + f (compute_driver_scores it)) l acc
                  <= acc + 10 * Z.of_nat (List.length l)).
    { induction l as [|x l IH]; simpl; intros acc Hacc; [lia|].
      specialize (Hf x). specialize (IH (acc + f (compute_driver_scores x)) ltac:(lia)).
      lia. }
    specialize (G inits 0 ltac:(lia)). lia. }
  repeat constructor; apply H; intros it; apply (HeatFacts.driver_bounds it).
Qed.

(* ------------------------------------------------------------------ *)
(** ** Executive brief *)

Module BriefFacts.
Import ScoreFacts.

Lemma min_by_spec (f : Snap.t -> Z) xs x :
  let m := fold_left (fun b y => if f y <? f b then y else b) xs x in
  In m (x :: xs) /\ forall z, In z (x :: xs) -> f m <= f z.
Proof.
  cbv zeta. revert x. induction xs as [|y xs IH]; intros x; simpl.
  - split; [auto|]. intros z [<-|[]]. lia.
  - destruct (Z.ltb_spec (f y) (f x)) as [Hlt|Hge].
    + destruct (IH y) as [Hin Hmin]. split; [simpl in Hin; tauto|].
      intros z [<-|Hz]; [specialize (Hmin y (or_introl eq_refl)); lia|].
      apply Hmin. exact Hz.
    + destruct (IH x) as [Hin Hmin]. split; [simpl in Hin; tauto|].
      intros z [<-|[<-|Hz]]; [apply Hmin; left; reflexivity| |apply Hmin; right; exact Hz].
      specialize (Hmin x (or_introl eq_refl)). lia.
Qed.

Lemma max_by_spec (f : Snap.t -> Z) xs x :
  let m := fold_left (fun b y => if f b <? f y then y else b) xs x in
  In m (x :: xs) /\ forall z, In z (x :: xs) -> f z <= f m.
Proof.
  cbv zeta. revert x. induction xs as [|y xs IH]; intros x; simpl.
  - split; [auto|]. intros z [<-|[]]. lia.
  - destruct (Z.ltb_spec (f x) (f y)) as [Hlt|Hge].
    + destruct (IH y) as [Hin Hmax]. split; [simpl in Hin; tauto|].
      intros z [<-|Hz]; [specialize (Hmax y (or_introl eq_refl)); lia|].
      apply Hmax. exact Hz.
    + destruct (IH x) as [Hin Hmax]. split; [simpl in Hin; tauto|].
      intros z [<-|[<-|Hz]]; [apply Hmax; left; reflexivity| |apply Hmax; right; exact Hz].
      specialize (Hmax x (or_introl eq_refl)). lia.
Qed.

Lemma selection_ok inits sel :
  brief_selection inits = Ok sel ->
  risks sel = firstn 3 (sort_by (fun x y => Qlt_bool (risk_rank y) (risk_rank x)) inits)
  /\ positives sel
     = firstn 3 (sort_by (fun x y => lex_gt [delta x; Snap.dcs_current x]
                                            [delta y; Snap.dcs_current y])
                         (filter is_positive inits))
  /\ min_by delta inits = Some (biggest_drop sel)
  /\ max_by delta inits = Some (biggest_gain sel).
Proof.
  unfold brief_selection.
  destruct (min_by delta inits), (max_by delta inits); try discriminate.
  intros [= <-]. simpl. auto.
Qed.

Lemma existsb_false_filter {A} (f : A -> bool) l :
  existsb f l = false -> filter f l = [].
Proof.
  induction l as [|y l IH]; simpl; [reflexivity|].
  intros H. apply orb_false_iff in H. destruct H as [-> H]. apply IH, H.
Qed.

Lemma sorted_mono {A} (R R' : A -> A -> Prop) l :
  (forall x y, R x y -> R' x y) -> Sorted R l -> Sorted R' l.
Proof.
  intros HR Hs. induction Hs as [|x l Hs IH Hhd]; constructor; [exact IH|].
  destruct Hhd; constructor. apply HR. assumption.
Qed.

Lemma in_firstn {A} n (l : list A) x : In x (firstn n l) -> In x l.
Proof. intros H. rewrite <- (firstn_skipn n l). apply in_or_app. left. exact H. Qed.

Lemma strongly_sorted_firstn {A} (R : A -> A -> Prop) n l :
  StronglySorted R l -> StronglySorted R (firstn n l).
Proof.
  revert l. induction n as [|n IH]; intros [|x l] Hs; simpl; try constructor.
  - inversion Hs as [|? ? Hs' Hall]; subst. apply IH, Hs'.
  - inversion Hs as [|? ? Hs' Hall]; subst.
    rewrite Forall_forall in Hall |- *. intros y Hy. apply Hall.
    apply (in_firstn n l y Hy).
Qed.

Lemma Qlt_bool_asym x y : Qlt_bool x y = true -> Qlt_bool y x = false.
Proof.
  intros H. apply Qlt_bool_iff in H. destruct (Qlt_bool y x) eqn:E; [|reflexivity].
  apply Qlt_bool_iff in E. lra.
Qed.

End BriefFacts.

(** X18: [risk_rank] never decreases when an initiative looks riskier: a
    lower or equal delta and score, at least as many blocked days,
    stagnant days and dependencies, a critical dependency whenever the
    other has one, and a target at most as far away. *)
Theorem risk_rank_monotone (i j : Snap.t)
    (Hdelta : delta j <= delta i)
    (Hdcs : Snap.dcs_current j <= Snap.dcs_current i)
    (Hb : Snap.blocked_days i <= Snap.blocked_days j)
    (Hst : Snap.days_stagnant i <= Snap.days_stagnant j)
    (Hd : Snap.dependency_count i <= Snap.dependency_count j)
    (Hc : Snap.critical_dependency i = true -> Snap.critical_dependency j = true)
    (Ht : Snap.days_to_target j <= Snap.days_to_target i) :
  (risk_rank i <= risk_rank j)%Q.
Proof.
  unfold risk_rank. cbv zeta.
  assert (F : (inject_Z (Z.max 0 (- delta i)) <= inject_Z (Z.max 0 (- delta j)))%Q)
    by (rewrite <- Zle_Qle; lia).
  assert (B : (inject_Z (clamp (Snap.blocked_days i) 0 10)
               <= inject_Z (clamp (Snap.blocked_days j) 0 10))%Q)
    by (rewrite <- Zle_Qle; unfold clamp; lia).
  assert (S : (inject_Z (clamp (Snap.days_stagnant i) 0 10)
               <= inject_Z (clamp (Snap.days_stagnant j) 0 10))%Q)
    by (rewrite <- Zle_Qle; unfold clamp; lia).
  assert (D : (inject_Z (clamp (Snap.dependency_count i) 0 10)
               <= inject_Z (clamp (Snap.dependency_count j) 0 10))%Q)
    by (rewrite <- Zle_Qle; unfold clamp; lia).
  assert (L : (inject_Z (100 - Snap.dcs_current i) <= inject_Z (100 - Snap.dcs_current j))%Q)
    by (rewrite <- Zle_Qle; lia).
  assert (C : ((if Snap.critical_dependency i then 6 else 0)
               <= (if Snap.critical_dependency j then 6 else 0))%Q).
  { destruct (Snap.critical_dependency i), (Snap.critical_dependency j);
      try (specialize (Hc eq_refl); discriminate); lra. }
  assert (U : ((if Snap.days_to_target i <=? 7 then 18
                else if Snap.days_to_target i <=? 14 then 10 else 0)
               <= (if Snap.days_to_target j <=? 7 then 18
                   else if Snap.days_to_target j <=? 14 then 10 else 0))%Q).
  { destruct (Z.leb_spec (Snap.days_to_target i) 7), (Z.leb_spec (Snap.days_to_target j) 7),
      (Z.leb_spec (Snap.days_to_target i) 14), (Z.leb_spec (Snap.days_to_target j) 14);
      try lia; lra. }
  lra.
Qed.

Lemma risk_rank_monotone_witness :
  (risk_rank (Snap.mk "C" "Gamma" 88 88 "Green" 0 0 0 1 false 40 [])
   <= risk_rank (Snap.mk "B" "Beta" 55 60 "Red" 3 2 4 5 true 5 []))%Q.
Proof.
  apply (risk_rank_monotone (Snap.mk "C" "Gamma" 88 88 "Green" 0 0 0 1 false 40 [])
                            (Snap.mk "B" "Beta" 55 60 "Red" 3 2 4 5 true 5 []));
    unfold delta; simpl; try lia; reflexivity.
Defined.

(** X19: the decision prompt is the fallback "Continue current plan;
    monitor trend" exactly when no rule fires (fewer than 2 scope changes,
    fewer than 2 blocked days, fewer than 4 stagnant days, no critical
    dependency, fewer than 4 dependencies, and a score of at least 80
    whenever the target is at most 14 days away); it joins one or two
    prompts. *)
Theorem decision_prompt_fallback (i : Snap.t) :
  (decision_prompt i = CONTINUE_PROMPT
   <-> Snap.scope_changes_14d i < 2 /\ Snap.blocked_days i < 2 /\ Snap.days_stagnant i < 4
       /\ Snap.critical_dependency i = false /\ Snap.dependency_count i < 4
       /\ (Snap.days_to_target i <= 14 -> 80 <= Snap.dcs_current i))
  /\ (1 <= List.length (decision_prompts i) <= 2)%nat.
Proof.
  unfold decision_prompt, decision_prompts, CONTINUE_PROMPT. cbv zeta.
  destruct (Z.leb_spec 2 (Snap.scope_changes_14d i)), (Z.leb_spec 2 (Snap.blocked_days i)),
    (Z.leb_spec 4 (Snap.days_stagnant i)), (Snap.critical_dependency i),
    (Z.leb_spec 4 (Snap.dependency_count i)), (Z.leb_spec (Snap.days_to_target i) 14),
    (Z.ltb_spec (Snap.dcs_current i) 80); simpl;
  (split; [|lia]); split;
  try (intros Heq; discriminate Heq);
  try (intros (Ha & Hb & Hc & Hd & He & Hf); exfalso;
       first [lia | discriminate Hd | specialize (Hf ltac:(assumption)); lia]);
  intros _; repeat split; try lia; try reflexivity.
Qed.

(** X20: [band_counts] maps each of Green, Yellow and Red, and every
    other band that occurs, to the number of initiatives with that band;
    no other key is present. *)
Theorem band_counts_spec (inits : list Snap.t) (b : string) :
  dict_get (band_counts inits) b
  = if existsb (String.eqb b) ["Green"; "Yellow"; "Red"]
       || existsb (fun i => String.eqb (Snap.band i) b) inits
    then Some (Z.of_nat (List.length (filter (fun i => String.eqb (Snap.band i) b) inits)))
    else None.
Proof.
  unfold band_counts.
  induction inits as [|x l IH] using rev_ind.
  - simpl. destruct (String.eqb b "Green"), (String.eqb b "Yellow"), (String.eqb b "Red");
      reflexivity.
  - rewrite fold_left_app. simpl.
    set (C := fold_left _ l _) in *.
    rewrite existsb_app, filter_app, length_app. simpl.
    destruct (String.eqb_spec (Snap.band x) b) as [<-|Hne].
    + change (true || false) with true. rewrite !orb_true_r.
      destruct (dict_get C (Snap.band x)) as [n|] eqn:E;
        rewrite DictFacts.get_set, String.eqb_refl; clear E.
      * destruct (existsb (String.eqb (Snap.band x)) ["Green"; "Yellow"; "Red"]
                  || existsb (fun i => String.eqb (Snap.band i) (Snap.band x)) l);
          [|discriminate].
        injection IH as ->. simpl. f_equal. lia.
      * destruct (existsb (String.eqb (Snap.band x)) ["Green"; "Yellow"; "Red"]
                  || existsb (fun i => String.eqb (Snap.band i) (Snap.band x)) l) eqn:Eb;
          [discriminate IH|].
        apply orb_false_iff in Eb. destruct Eb as [_ Eb].
        rewrite (BriefFacts.existsb_false_filter _ _ Eb). reflexivity.
    + assert (Hne' : String.eqb (Snap.band x) b = false) by (apply String.eqb_neq; exact Hne).
      assert (Hne'' : String.eqb b (Snap.band x) = false)
        by (apply String.eqb_neq; intros ->; apply Hne; reflexivity).
      change (false || false) with false. rewrite orb_false_r. cbn [List.length].
      rewrite Nat.add_0_r.
      destruct (dict_get C (Snap.band x)); rewrite DictFacts.get_set, Hne'', IH; simpl;
        rewrite !orb_false_r; reflexivity.
Qed.

(** X21: when the brief can be rendered, the biggest decline and the
    biggest improvement are initiatives of the snapshot whose deltas bound
    every delta from below and from above; the portfolio is not empty. *)
Theorem brief_movers (inits : list Snap.t) (sel : BriefSelection)
    (Hok : brief_selection inits = Ok sel) :
  inits <> []
  /\ In (biggest_drop sel) inits /\ In (biggest_gain sel) inits
  /\ forall z, In z inits -> delta (biggest_drop sel) <= delta z <= delta (biggest_gain sel).
Proof.
  destruct (BriefFacts.selection_ok inits sel Hok) as (_ & _ & Hmin & Hmax).
  destruct inits as [|x xs]; [discriminate Hmin|].
  simpl in Hmin, Hmax. injection Hmin as Hmin. injection Hmax as Hmax.
  destruct (BriefFacts.min_by_spec delta xs x) as [Hin1 Hle1].
  destruct (BriefFacts.max_by_spec delta xs x) as [Hin2 Hle2].
  rewrite Hmin in Hin1, Hle1. rewrite Hmax in Hin2, Hle2.
  split; [discriminate|]. split; [exact Hin1|]. split; [exact Hin2|].
  intros z Hz. split; [apply Hle1|apply Hle2]; exact Hz.
Qed.

Lemma brief_movers_witness :
  brief_selection brief_inits = Ok fixture_brief
  /\ delta (biggest_drop fixture_brief) = -5 /\ delta (biggest_gain fixture_brief) = 5
  /\ (brief_inits <> []
      /\ In (biggest_drop fixture_brief) brief_inits /\ In (biggest_gain fixture_brief) brief_inits
      /\ forall z, In z brief_inits ->
           delta (biggest_drop fixture_brief) <= delta z <= delta (biggest_gain fixture_brief)).
Proof.
  assert (Hok : brief_selection brief_inits = Ok fixture_brief) by (vm_compute; reflexivity).
  split; [exact Hok|]. split; [vm_compute; reflexivity|]. split; [vm_compute; reflexivity|].
  exact (brief_movers brief_inits fixture_brief Hok).
Defined.

(** X22: the brief's top risks are the first three initiatives by
    [risk_rank], highest first: as many as min(3, number of initiatives),
    each an initiative of the snapshot, in non-increasing rank, and none
    ranked below an initiative left out. *)
Theorem brief_top_risks (inits : list Snap.t) (sel : BriefSelection)
    (Hok : brief_selection inits = Ok sel) :
  List.length (risks sel) = Nat.min 3 (List.length inits)
  /\ (forall x, In x (risks sel) -> In x inits)
  /\ StronglySorted (fun x y => (risk_rank y <= risk_rank x)%Q) (risks sel)
  /\ forall x y, In x (risks sel) -> In y inits -> ~ In y (risks sel) ->
       (risk_rank y <= risk_rank x)%Q.
Proof.
  destruct (BriefFacts.selection_ok inits sel Hok) as (Hr & _ & _ & _).
  set (lt := fun x y : Snap.t => Qlt_bool (risk_rank y) (risk_rank x)) in Hr.
  set (s := sort_by lt inits) in Hr.
  assert (Hperm : Permutation s inits) by apply (SortByFacts.sort_by_perm lt).
  assert (Hss : StronglySorted (fun x y => (risk_rank y <= risk_rank x)%Q) s).
  { apply Sorted_StronglySorted.
    - intros x y z H1 H2. eapply Qle_trans; eassumption.
    - apply (BriefFacts.sorted_mono (SortByFacts.le_by lt)).
      + unfold SortByFacts.le_by, lt. intros x y H. apply ScoreFacts.Qlt_bool_false. exact H.
      + apply SortByFacts.sort_by_sorted. intros x y. apply BriefFacts.Qlt_bool_asym. }
  rewrite Hr. split; [|split; [|split]].
  - rewrite length_firstn, (Permutation_length Hperm). reflexivity.
  - intros x Hx. apply (Permutation_in _ Hperm). apply (BriefFacts.in_firstn 3 s), Hx.
  - apply BriefFacts.strongly_sorted_firstn, Hss.
  - intros x y Hx Hy Hn. exact (SortByFacts.top_n _ 3 _ _ x y Hperm Hss Hx Hy Hn).
Qed.

Lemma brief_top_risks_witness :
  brief_selection brief_inits = Ok fixture_brief
  /\ map Snap.id (risks fixture_brief) = ["B"; "D"; "C"]
  /\ (List.length (risks fixture_brief) = Nat.min 3 (List.length brief_inits)
      /\ (forall x, In x (risks fixture_brief) -> In x brief_inits)
      /\ StronglySorted (fun x y => (risk_rank y <= risk_rank x)%Q) (risks fixture_brief)
      /\ forall x y, In x (risks fixture_brief) -> In y brief_inits ->
           ~ In y (risks fixture_brief) -> (risk_rank y <= risk_rank x)%Q).
Proof.
  assert (Hok : brief_selection brief_inits = Ok fixture_brief) by (vm_compute; reflexivity).
  split; [exact Hok|]. split; [vm_compute; reflexivity|].
  exact (brief_top_risks brief_inits fixture_brief Hok).
Defined.

(** X23: the brief's positives are the first three initiatives that
    improved or are Green with a score of at least 85, ordered by delta and
    then score, highest first: as many as min(3, number qualifying), each
    a qualifying initiative of the snapshot, in non-increasing order, and
    none below a qualifying initiative left out. *)
Theorem brief_positives (inits : list Snap.t) (sel : BriefSelection)
    (Hok : brief_selection inits = Ok sel) :
  let key := fun i => [delta i; Snap.dcs_current i] in
  List.length (positives sel) = Nat.min 3 (List.length (filter is_positive inits))
  /\ (forall x, In x (positives sel) -> In x inits /\ is_positive x = true)
  /\ StronglySorted (fun x y => lex_gt (key y) (key x) = false) (positives sel)
  /\ forall x y, In x (positives sel) -> In y inits -> is_positive y = true ->
       ~ In y (positives sel) -> lex_gt (key y) (key x) = false.
Proof.
  cbv zeta.
  destruct (BriefFacts.selection_ok inits sel Hok) as (_ & Hp & _ & _).
  set (key := fun i => [delta i; Snap.dcs_current i]).
  set (lt := fun x y : Snap.t => lex_gt (key x) (key y)).
  set (q := filter is_positive inits) in Hp.
  set (s := sort_by lt q).
  change (positives sel = firstn 3 s) in Hp.
  assert (Hperm : Permutation s q) by apply (SortByFacts.sort_by_perm lt).
  assert (Hss : StronglySorted (fun x y => lex_gt (key y) (key x) = false) s).
  { apply Sorted_StronglySorted.
    - intros x y z H1 H2. apply (HeatFacts.lex_ge_trans _ (key y)); try reflexivity; assumption.
    - apply (SortByFacts.sort_by_sorted lt). intros x y. apply HeatFacts.lex_gt_asym. }
  rewrite Hp. split; [|split; [|split]].
  - rewrite length_firstn, (Permutation_length Hperm). reflexivity.
  - intros x Hx. apply filter_In. apply (Permutation_in _ Hperm). apply (BriefFacts.in_firstn 3 s), Hx.
  - apply BriefFacts.strongly_sorted_firstn, Hss.
  - intros x y Hx Hy Hpos Hn.
    exact (SortByFacts.top_n _ 3 _ _ x y Hperm Hss Hx (proj2 (filter_In _ _ _) (conj Hy Hpos)) Hn).
Qed.

Lemma brief_positives_witness :
  brief_selection brief_inits = Ok fixture_brief
  /\ map Snap.id (positives fixture_brief) = ["A"; "C"]
  /\ (let key := fun i => [delta i; Snap.dcs_current i] in
      List.length (positives fixture_brief)
        = Nat.min 3 (List.length (filter is_positive brief_inits))
      /\ (forall x, In x (positives fixture_brief) -> In x brief_inits /\ is_positive x = true)
      /\ StronglySorted (fun x y => lex_gt (key y) (key x) = false) (positives fixture_brief)
      /\ forall x y, In x (positives fixture_brief) -> In y brief_inits ->
           is_positive y = true -> ~ In y (positives fixture_brief) ->
           lex_gt (key y) (key x) = false).
Proof.
  assert (Hok : brief_selection brief_inits = Ok fixture_brief) by (vm_compute; reflexivity).
  split; [exact Hok|]. split; [vm_compute; reflexivity|].
  exact (brief_positives brief_inits fixture_brief Hok).
Defined.
